(** * Refresh token generator for Google OAuth: a shallow embedding

    The program under study is the single script
    [refresh_token_generator_for_google_oauth.py].  It talks to the outside
    world through the console ([print], [input]), the process environment
    ([os.environ]), a child process ([subprocess.Popen] running [curl]) and
    the exit status.  The embedding keeps these effects explicit: every
    operation is a function from a [World] to an [Outcome] and a new
    [World], and the [World] carries the trace of everything the script
    wrote or launched, in order.

    Python [str] values are sequences of Unicode code points ([pystr]);
    Python [bytes] values are sequences of 8-bit characters ([bytes]).

    The library functions the script calls are modelled as CPython 3.6
    (the interpreter of the script's first line) runs them: [str.strip],
    [str.split], [repr], [json.loads] on bytes and the argument loop of
    [optparse].  A launched command is an event of the trace that holds
    its argument list: what [curl] does with it is outside the script.
    The interpreter's recursion limit enters where an input can reach
    it: in [json.loads], whose scanner nests one call for each container
    of the answer inside another.  Left out is the encoding of text
    written to the console or passed to the child process: the texts are
    taken to be ones the console can write, and the statements about text
    that comes out of the answer say so. *)

From Stdlib Require Import ZArith NArith Ascii String List Bool Lia.
From stdpp Require Import gmap.
Import ListNotations.

Local Open Scope N_scope.
Set Warnings "-register-all".

(** ** Python strings *)

Definition pystr := list N.
Definition bytes := string.

(** The code points of an ASCII literal of the source. *)
Definition lit (s : string) : pystr :=
  List.map N_of_ascii (list_ascii_of_string s).

(** The values of the bytes of a byte string. *)
Definition codes (b : bytes) : list N :=
  List.map N_of_ascii (list_ascii_of_string b).

(** A double quote, for the literals of the source that contain one. *)
Definition dq : string := String (ascii_of_nat 34) EmptyString.

Definition pystr_eqb (a b : pystr) : bool :=
  if decide (a = b) then true else false.

(** [str.isspace] on one code point: the characters [str.strip()] removes. *)
Definition isspace (c : N) : bool :=
  ((9 <=? c) && (c <=? 13)) || ((28 <=? c) && (c <=? 32))
  || (c =? 0x85) || (c =? 0xA0) || (c =? 0x1680)
  || ((0x2000 <=? c) && (c <=? 0x200A))
  || (c =? 0x2028) || (c =? 0x2029) || (c =? 0x202F)
  || (c =? 0x205F) || (c =? 0x3000).

Fixpoint lstrip (s : pystr) : pystr :=
  match s with
  | c :: s' => if isspace c then lstrip s' else s
  | [] => []
  end.

Definition rstrip (s : pystr) : pystr := rev (lstrip (rev s)).

(** [s.strip()] *)
Definition strip (s : pystr) : pystr := rstrip (lstrip s).

(** [s.split(sep)] for a separator of one character: never empty, one
    more field than there are separators. *)
Fixpoint split (sep : N) (s : pystr) : list pystr :=
  match s with
  | [] => [[]]
  | c :: s' =>
      if c =? sep then [] :: split sep s'
      else match split sep s' with
           | f :: fs => (c :: f) :: fs
           | [] => [[c]]
           end
  end.

(** [s.startswith(p)] *)
Fixpoint startswith (p s : pystr) : bool :=
  match p, s with
  | [], _ => true
  | a :: p', b :: s' => (a =? b) && startswith p' s'
  | _ :: _, [] => false
  end.

(** [needle in hay] for two strings: substring search. *)
Fixpoint str_contains (needle hay : pystr) : bool :=
  startswith needle hay ||
  match hay with
  | [] => false
  | _ :: hay' => str_contains needle hay'
  end.

(** [sep.join(parts)] *)
Fixpoint join (sep : pystr) (parts : list pystr) : pystr :=
  match parts with
  | [] => []
  | [p] => p
  | p :: ps => p ++ sep ++ join sep ps
  end.

(** *** [repr] of [str] and of [bytes] *)

Definition hexdigit (d : N) : N :=
  if d <? 10 then 48 + d else 87 + d.

Fixpoint hex_digits (n : nat) (v : N) : pystr :=
  match n with
  | O => []
  | S n' => hex_digits n' (v / 16) ++ [hexdigit (v mod 16)]
  end.

Definition squote : N := 39.
Definition dquote : N := 34.
Definition backslash : N := 92.

(** The quote [repr] delimits with: a double quote when the text has a
    single quote and no double quote, a single quote otherwise. *)
Definition repr_quote (s : list N) : N :=
  if existsb (N.eqb squote) s && negb (existsb (N.eqb dquote) s)
  then dquote else squote.

Section Repr.
(** [str.isprintable] of a code point above ASCII comes from the Unicode
    character database, which is not part of the program. *)
Variable isprintable : N -> bool.

Definition str_repr_char (q c : N) : pystr :=
  if (c =? q) || (c =? backslash) then [backslash; c]
  else if c =? 9 then lit "\t"
  else if c =? 10 then lit "\n"
  else if c =? 13 then lit "\r"
  else if (c <? 32) || (c =? 127) then lit "\x" ++ hex_digits 2 c
  else if c <? 127 then [c]
  else if isprintable c then [c]
  else if c <=? 0xff then lit "\x" ++ hex_digits 2 c
  else if c <=? 0xffff then lit "\u" ++ hex_digits 4 c
  else lit "\U" ++ hex_digits 8 c.

(** [repr(s)] for a [str] *)
Definition str_repr (s : pystr) : pystr :=
  let q := repr_quote s in
  [q] ++ flat_map (str_repr_char q) s ++ [q].

(** [str(l)] for a list of [str] *)
Definition list_str (l : list pystr) : pystr :=
  lit "[" ++ join (lit ", ") (List.map str_repr l) ++ lit "]".
End Repr.

Definition bytes_repr_char (q c : N) : pystr :=
  if (c =? q) || (c =? backslash) then [backslash; c]
  else if c =? 9 then lit "\t"
  else if c =? 10 then lit "\n"
  else if c =? 13 then lit "\r"
  else if (c <? 32) || (127 <=? c) then lit "\x" ++ hex_digits 2 c
  else [c].

(** [repr(b)] for a [bytes], which is also what [str(b)] and ["%s" % b]
    give. *)
Definition bytes_repr (b : bytes) : pystr :=
  let q := repr_quote (codes b) in
  lit "b" ++ [q] ++ flat_map (bytes_repr_char q) (codes b) ++ [q].

(** ** [json.loads]

    The value model of the [json] module, and its decoder as CPython runs
    it by default (the C scanner): the document grammar, the extra
    constants [NaN], [Infinity] and [-Infinity], strict strings, and a
    dictionary per object.  Numbers with a fraction or an exponent keep
    their text, because no operation of the script looks inside them. *)

Inductive json : Type :=
| JNull
| JBool (b : bool)
| JInt (z : Z)
| JFloat (text : pystr)
| JString (s : pystr)
| JArray (items : list json)
| JObject (members : list (pystr * json)).

(** *** Decoding the bytes ([detect_encoding] and [bytes.decode] with
    [surrogatepass]) *)

Definition is_cont (b : N) : bool := (0x80 <=? b) && (b <=? 0xBF).
Definition cont (b : N) : N := b - 0x80.

Fixpoint decode_utf8 (b : list N) : option pystr :=
  match b with
  | [] => Some []
  | b0 :: r0 =>
      if b0 <? 0x80 then cons b0 <$> decode_utf8 r0
      else if b0 <? 0xC2 then None
      else match r0 with
      | [] => None
      | b1 :: r1 =>
        if negb (is_cont b1) then None
        else if b0 <? 0xE0 then
          cons ((b0 - 0xC0) * 64 + cont b1) <$> decode_utf8 r1
        else match r1 with
        | [] => None
        | b2 :: r2 =>
          if negb (is_cont b2) then None
          else if b0 <? 0xF0 then
            if (b0 =? 0xE0) && (b1 <? 0xA0) then None
            else cons ((b0 - 0xE0) * 4096 + cont b1 * 64 + cont b2)
                   <$> decode_utf8 r2
          else match r2 with
          | [] => None
          | b3 :: r3 =>
            if negb (is_cont b3) then None
            else if 0xF4 <? b0 then None
            else if (b0 =? 0xF0) && (b1 <? 0x90) then None
            else if (b0 =? 0xF4) && (0x8F <? b1) then None
            else cons ((b0 - 0xF0) * 262144 + cont b1 * 4096
                       + cont b2 * 64 + cont b3)
                   <$> decode_utf8 r3
          end
        end
      end
  end.

Definition is_high (u : N) : bool := (0xD800 <=? u) && (u <=? 0xDBFF).
Definition is_low (u : N) : bool := (0xDC00 <=? u) && (u <=? 0xDFFF).
Definition join_surrogates (hi lo : N) : N :=
  0x10000 + (hi - 0xD800) * 1024 + (lo - 0xDC00).

(** The 16-bit units of a byte sequence; [None] on an odd length. *)
Fixpoint units16 (big : bool) (b : list N) : option (list N) :=
  match b with
  | [] => Some []
  | [_] => None
  | x :: y :: r =>
      cons (if big then x * 256 + y else y * 256 + x) <$> units16 big r
  end.

Fixpoint pair_surrogates (u : list N) : pystr :=
  match u with
  | [] => []
  | hi :: r =>
      match r with
      | lo :: r' =>
          if is_high hi && is_low lo
          then join_surrogates hi lo :: pair_surrogates r'
          else hi :: pair_surrogates r
      | [] => [hi]
      end
  end.

Definition decode_utf16 (big : bool) (b : list N) : option pystr :=
  pair_surrogates <$> units16 big b.

Fixpoint decode_utf32 (big : bool) (b : list N) : option pystr :=
  match b with
  | [] => Some []
  | x :: y :: z :: t :: r =>
      let c := if big then ((x * 256 + y) * 256 + z) * 256 + t
               else ((t * 256 + z) * 256 + y) * 256 + x in
      if 0x10FFFF <? c then None else cons c <$> decode_utf32 big r
  | _ => None
  end.

Definition prefix_drop (p b : list N) : option (list N) :=
  if startswith p b then Some (skipn (length p) b) else None.

(** [b.decode(detect_encoding(b), 'surrogatepass')] *)
Definition decode_json_bytes (b : list N) : option pystr :=
  match prefix_drop [0; 0; 0xFE; 0xFF] b with
  | Some r => decode_utf32 true r
  | None =>
  match prefix_drop [0xFF; 0xFE; 0; 0] b with
  | Some r => decode_utf32 false r
  | None =>
  match prefix_drop [0xFE; 0xFF] b with
  | Some r => decode_utf16 true r
  | None =>
  match prefix_drop [0xFF; 0xFE] b with
  | Some r => decode_utf16 false r
  | None =>
  match prefix_drop [0xEF; 0xBB; 0xBF] b with
  | Some r => decode_utf8 r
  | None =>
  match b with
  | b0 :: b1 :: b2 :: b3 :: _ =>
      if b0 =? 0 then
        if b1 =? 0 then decode_utf32 true b else decode_utf16 true b
      else if b1 =? 0 then
        if (b2 =? 0) && (b3 =? 0) then decode_utf32 false b
        else decode_utf16 false b
      else decode_utf8 b
  | [b0; b1] =>
      if b0 =? 0 then decode_utf16 true b
      else if b1 =? 0 then decode_utf16 false b
      else decode_utf8 b
  | _ => decode_utf8 b
  end end end end end end.

(** *** The scanner *)

Definition is_ws (c : N) : bool :=
  (c =? 32) || (c =? 9) || (c =? 10) || (c =? 13).

Fixpoint skip_ws (s : pystr) : pystr :=
  match s with
  | c :: s' => if is_ws c then skip_ws s' else s
  | [] => []
  end.

Definition is_digit (c : N) : bool := (48 <=? c) && (c <=? 57).

Fixpoint span_digits (s : pystr) : pystr * pystr :=
  match s with
  | c :: s' =>
      if is_digit c then let (d, r) := span_digits s' in (c :: d, r)
      else ([], s)
  | [] => ([], [])
  end.

Definition hex_value (c : N) : option N :=
  if is_digit c then Some (c - 48)
  else if (97 <=? c) && (c <=? 102) then Some (c - 87)
  else if (65 <=? c) && (c <=? 70) then Some (c - 55)
  else None.

(** Four hexadecimal digits, as after [\u]. *)
Definition hex4 (s : pystr) : option (N * pystr) :=
  match s with
  | a :: b :: c :: d :: r =>
      a' ← hex_value a; b' ← hex_value b;
      c' ← hex_value c; d' ← hex_value d;
      Some (((a' * 16 + b') * 16 + c') * 16 + d', r)
  | _ => None
  end.

Definition simple_escape (e : N) : option N :=
  if e =? 34 then Some 34          (* double quote *)
  else if e =? 92 then Some 92     (* backslash *)
  else if e =? 47 then Some 47     (* slash *)
  else if e =? 98 then Some 8      (* b: backspace *)
  else if e =? 102 then Some 12    (* f: form feed *)
  else if e =? 110 then Some 10    (* n: line feed *)
  else if e =? 114 then Some 13    (* r: carriage return *)
  else if e =? 116 then Some 9     (* t: tab *)
  else None.

(** [scanstring], entered after the opening quote: the text of the string
    and what follows its closing quote. *)
Fixpoint scanstring (fuel : nat) (s : pystr) : option (pystr * pystr) :=
  match fuel with
  | O => None
  | S fuel' =>
    match s with
    | [] => None
    | c :: r =>
      if c =? 34 then Some ([], r)
      else if c =? 92 then
        match r with
        | [] => None
        | e :: r' =>
          if e =? 117 then
            '(u, r2) ← hex4 r';
            if is_high u && startswith (lit "\u") r2 then
              '(u2, r4) ← hex4 (skipn 2 r2);
              if is_low u2 then
                '(t, rest) ← scanstring fuel' r4;
                Some (join_surrogates u u2 :: t, rest)
              else
                '(t, rest) ← scanstring fuel' r2;
                Some (u :: t, rest)
            else
              '(t, rest) ← scanstring fuel' r2;
              Some (u :: t, rest)
          else
            x ← simple_escape e;
            '(t, rest) ← scanstring fuel' r';
            Some (x :: t, rest)
        end
      else if c <? 32 then None
      else
        '(t, rest) ← scanstring fuel' r;
        Some (c :: t, rest)
    end
  end.

Definition scan_string (s : pystr) : option (pystr * pystr) :=
  scanstring (S (length s)) s.

(** The value of a run of decimal digits. *)
Definition digits_value (d : pystr) : Z :=
  fold_left (fun acc c => (acc * 10 + Z.of_N (c - 48))%Z) d 0%Z.

(** The parts of [_match_number]: an optional sign, the integer digits
    (one [0], or a digit from [1] to [9] and any digits), a fraction when
    a digit follows the point, an exponent when it has a digit. *)
Definition number_sign (s : pystr) : bool * pystr :=
  match s with
  | c :: r => if c =? 45 then (true, r) else (false, s)
  | [] => (false, s)
  end.

Definition number_int (s : pystr) : option (pystr * pystr) :=
  match s with
  | [] => None
  | c :: r =>
      if c =? 48 then Some ([c], r)
      else if is_digit c then
        let (d, r') := span_digits r in Some (c :: d, r')
      else None
  end.

Definition number_frac (s : pystr) : pystr * pystr :=
  match s with
  | p :: f :: _ =>
      if (p =? 46) && is_digit f
      then let (d, r') := span_digits (tl s) in (p :: d, r')
      else ([], s)
  | _ => ([], s)
  end.

Definition number_exp (s : pystr) : pystr * pystr :=
  match s with
  | e :: r =>
      if (e =? 101) || (e =? 69) then
        let (sign, r') :=
          match r with
          | g :: r' => if (g =? 45) || (g =? 43) then ([g], r') else ([], r)
          | [] => ([], r)
          end in
        let (d, r'') := span_digits r' in
        match d with
        | [] => ([], s)
        | _ => (e :: sign ++ d, r'')
        end
      else ([], s)
  | [] => ([], s)
  end.

(** [_match_number]: the longest number at the head of [s]; an integer
    when it has neither fraction nor exponent. *)
Definition match_number (s : pystr) : option (json * pystr) :=
  let (neg, s1) := number_sign s in
  '(ds, s2) ← number_int s1;
  let (frac, s3) := number_frac s2 in
  let (exp, s4) := number_exp s3 in
  match frac, exp with
  | [], [] =>
      Some (JInt (if neg then - digits_value ds else digits_value ds)%Z, s4)
  | _, _ =>
      Some (JFloat ((if neg then [45] else []) ++ ds ++ frac ++ exp), s4)
  end.

Definition keyword (k : string) (v : json) (s : pystr)
  : option (json * pystr) :=
  if startswith (lit k) s then Some (v, skipn (length (lit k)) s) else None.

(** Whether the next character is [c]. *)
Definition next_is (c : N) (s : pystr) : bool :=
  match s with
  | x :: _ => x =? c
  | [] => false
  end.

(** What a scan gives: a value with the rest of the text, a malformed
    text ([JSONDecodeError]), or a container met when the interpreter
    allows no further nested call ([RecursionError], which is not a
    [ValueError]). *)
Inductive scan (A : Type) : Type :=
| Scanned (a : A)
| Malformed
| TooDeep.
Arguments Scanned {A} a.
Arguments Malformed {A}.
Arguments TooDeep {A}.

Definition of_option {A : Type} (o : option A) : scan A :=
  match o with
  | Some a => Scanned a
  | None => Malformed
  end.

#[global] Instance scan_bind : MBind scan := fun A B f m =>
  match m with
  | Scanned a => f a
  | Malformed => Malformed
  | TooDeep => TooDeep
  end.

(** [scan_once] with the loops of [_parse_array] and [_parse_object].
    [fuel] bounds the number of calls, and is an artefact of the model;
    [depth] is the number of containers that may still be entered, one
    inside the other: the scanner calls [Py_EnterRecursiveCall] when it
    meets an opening brace or bracket, before it looks at what follows,
    and leaves the level again after the closing one. *)
Fixpoint scan_once (fuel depth : nat) (s : pystr) : scan (json * pystr) :=
  match fuel with
  | O => Malformed
  | S fuel' =>
    match s with
    | [] => Malformed
    | c :: r =>
      if c =? 34 then
        '(t, rest) ← of_option (scan_string r); Scanned (JString t, rest)
      else if c =? 123 then
        match depth with
        | O => TooDeep
        | S depth' =>
          let r' := skip_ws r in
          if next_is 125 r' then Scanned (JObject [], tl r')
          else '(kvs, rest) ← members fuel' depth' r';
               Scanned (JObject kvs, rest)
        end
      else if c =? 91 then
        match depth with
        | O => TooDeep
        | S depth' =>
          let r' := skip_ws r in
          if next_is 93 r' then Scanned (JArray [], tl r')
          else '(vs, rest) ← elements fuel' depth' r';
               Scanned (JArray vs, rest)
        end
      else
        of_option
        match keyword "null" JNull s with Some x => Some x | None =>
        match keyword "true" (JBool true) s with Some x => Some x | None =>
        match keyword "false" (JBool false) s with Some x => Some x | None =>
        match keyword "NaN" (JFloat (lit "NaN")) s with
        | Some x => Some x | None =>
        match keyword "Infinity" (JFloat (lit "Infinity")) s with
        | Some x => Some x | None =>
        match keyword "-Infinity" (JFloat (lit "-Infinity")) s with
        | Some x => Some x | None =>
        match_number s
        end end end end end end
    end
  end
with elements (fuel depth : nat) (s : pystr) : scan (list json * pystr) :=
  match fuel with
  | O => Malformed
  | S fuel' =>
    '(v, r) ← scan_once fuel' depth s;
    let r' := skip_ws r in
    if next_is 93 r' then Scanned ([v], tl r')
    else if next_is 44 r' then
      '(vs, rest) ← elements fuel' depth (skip_ws (tl r'));
      Scanned (v :: vs, rest)
    else Malformed
  end
with members (fuel depth : nat) (s : pystr)
  : scan (list (pystr * json) * pystr) :=
  match fuel with
  | O => Malformed
  | S fuel' =>
    if next_is 34 s then
      '(k, r1) ← of_option (scan_string (tl s));
      let r1' := skip_ws r1 in
      if next_is 58 r1' then
        '(v, r3) ← scan_once fuel' depth (skip_ws (tl r1'));
        let r3' := skip_ws r3 in
        if next_is 125 r3' then Scanned ([(k, v)], tl r3')
        else if next_is 44 r3' then
          '(kvs, rest) ← members fuel' depth (skip_ws (tl r3'));
          Scanned ((k, v) :: kvs, rest)
        else Malformed
      else Malformed
    else Malformed
  end.

(** [JSONDecoder.decode]: one value between optional white space.  The
    fuel is more than the scanner can use on a text of this length.
    [room] is the number of containers the recursion limit lets the
    scanner enter inside the outermost one.  The outermost one can always
    be entered where the script calls [json.loads]: it does so after
    [RunCommand] has returned, and [communicate] nests more calls than
    [loads], [decode], [raw_decode] and one container. *)
Definition json_decode (room : nat) (s : pystr) : scan json :=
  let s1 := skip_ws s in
  '(v, r) ← scan_once (2 * length s1 + 2) (S room) s1;
  match skip_ws r with
  | [] => Scanned v
  | _ => Malformed
  end.

(** What the script's calls raise.  [JSONDecodeError] and
    [UnicodeDecodeError] are subclasses of [ValueError]; the others are
    not. *)
Inductive exn : Type :=
| ValueError (msg : pystr)
| JSONDecodeError
| UnicodeDecodeError
| RecursionError
| TypeError
| EOFError
| OSError.

(** [isinstance(e, ValueError)] *)
Definition is_ValueError (e : exn) : bool :=
  match e with
  | ValueError _ | JSONDecodeError | UnicodeDecodeError => true
  | _ => false
  end.

(** [json.loads(b)] for a [bytes] argument, with room for [room] nested
    containers inside the outermost. *)
Definition json_loads (room : nat) (b : bytes) : exn + json :=
  match decode_json_bytes (codes b) with
  | None => inl UnicodeDecodeError
  | Some s =>
      match json_decode room s with
      | Scanned j => inr j
      | Malformed => inl JSONDecodeError
      | TooDeep => inl RecursionError
      end
  end.

(** *** The operations the script applies to a decoded value *)

(** [d[k]] on a dictionary built from the members in order: the last
    member with the key wins. *)
Fixpoint dict_get (k : pystr) (kvs : list (pystr * json)) : option json :=
  match kvs with
  | [] => None
  | (k', v) :: r =>
      match dict_get k r with
      | Some x => Some x
      | None => if pystr_eqb k' k then Some v else None
      end
  end.

(** [k in j]: key of a dictionary, element of a list, substring of a
    string; [None] stands for the [TypeError] of the other values. *)
Definition py_in (k : pystr) (j : json) : option bool :=
  match j with
  | JObject kvs => Some (existsb (fun kv => pystr_eqb (fst kv) k) kvs)
  | JArray vs =>
      Some (existsb (fun v => match v with
                              | JString s => pystr_eqb s k
                              | _ => false
                              end) vs)
  | JString s => Some (str_contains k s)
  | _ => None
  end.

(** [j[k]] for a string [k]: defined on dictionaries only. *)
Definition py_getitem (k : pystr) (j : json) : option json :=
  match j with
  | JObject kvs => dict_get k kvs
  | _ => None
  end.

(** ** [optparse]

    The parser [Main] builds has the long options [--help], [--login] and
    [--logout] and the short option [-h]; none takes a value. *)

Record Values : Type := { login : bool; logout : bool }.

Inductive optparse_error : Type :=
| NoSuchOption (opt : pystr)
| AmbiguousOption (opt : pystr)
| TakesNoValue (opt : pystr).

Inductive parse_result : Type :=
| Parsed (options : Values)
| HelpRequested
| UsageError (e : optparse_error).

Definition long_opts : list pystr :=
  [lit "--help"; lit "--login"; lit "--logout"].

(** [_match_abbrev]: the option itself, or the only one it abbreviates. *)
Definition match_long_opt (opt : pystr) : optparse_error + pystr :=
  if existsb (pystr_eqb opt) long_opts then inr opt
  else match List.filter (startswith opt) long_opts with
       | [o] => inr o
       | [] => inl (NoSuchOption opt)
       | _ => inl (AmbiguousOption opt)
       end.

(** The part of [arg] before its first [=], and whether there is one. *)
Fixpoint cut_eq (arg : pystr) : pystr * bool :=
  match arg with
  | [] => ([], false)
  | c :: r =>
      if c =? 61 then ([], true)
      else let (o, b) := cut_eq r in (c :: o, b)
  end.

(** [_process_args]: options and positional arguments may be mixed; [--]
    ends the options. *)
Fixpoint process_args (values : Values) (rargs : list pystr)
  : parse_result :=
  match rargs with
  | [] => Parsed values
  | arg :: rest =>
      if pystr_eqb arg (lit "--") then Parsed values
      else if startswith (lit "--") arg then
        let (opt, explicit) := cut_eq arg in
        match match_long_opt opt with
        | inl e => UsageError e
        | inr o =>
            if explicit then UsageError (TakesNoValue o)
            else if pystr_eqb o (lit "--help") then HelpRequested
            else if pystr_eqb o (lit "--login") then
              process_args {| login := true; logout := logout values |} rest
            else
              process_args {| login := login values; logout := true |} rest
        end
      else if startswith (lit "-") arg && (1 <? length arg)%nat then
        match arg with
        | _ :: ch :: _ =>
            if ch =? 104 then HelpRequested
            else UsageError (NoSuchOption [45; ch])
        | _ => Parsed values
        end
      else process_args values rest
  end.

(** [parser.parse_args(argv)] from the defaults of the two flags. *)
Definition parse_args (argv : list pystr) : parse_result :=
  process_args {| login := false; logout := false |} argv.

(** ** The world of the script *)

Inductive event : Type :=
| EvPrint (line : pystr)            (* print(line) on standard output *)
| EvPrompt (prompt : pystr)         (* the prompt of input(prompt) *)
| EvExec (cmd : list pystr)         (* subprocess.Popen(cmd) *)
| EvHelp                            (* parser.print_help() *)
| EvUsage (e : optparse_error).     (* usage and error on standard error *)

Inductive popen_result : Type :=
| Launched (stdout : bytes)
| LaunchError (e : exn).

Record World : Type := {
  environ : gmap pystr pystr;       (* os.environ *)
  stdin : list pystr;               (* the lines still to be read *)
  popen : list pystr -> popen_result; (* what a command does when it is
                                         launched in this environment *)
  trace : list event                (* what has happened so far *)
}.

Inductive Outcome (A : Type) : Type :=
| Ok (a : A)
| Raise (e : exn)
| Exit (status : Z).
Arguments Ok {A} a.
Arguments Raise {A} e.
Arguments Exit {A} status.

Definition M (A : Type) : Type := World -> Outcome A * World.

Definition ret {A} (a : A) : M A := fun w => (Ok a, w).

Definition bind {A B} (m : M A) (k : A -> M B) : M B :=
  fun w =>
    match m w with
    | (Ok a, w') => k a w'
    | (Raise e, w') => (Raise e, w')
    | (Exit n, w') => (Exit n, w')
    end.

Declare Scope py_scope.
Delimit Scope py_scope with py.
Bind Scope py_scope with M.
Notation "x <- m ;; k" := (bind m (fun x => k))
  (at level 100, m at next level, right associativity) : py_scope.
Notation "m ;; k" := (bind m (fun _ => k))
  (at level 100, right associativity) : py_scope.
Local Open Scope py_scope.

Definition raise {A} (e : exn) : M A := fun w => (Raise e, w).

(** [sys.exit(status)] *)
Definition sys_exit {A} (status : Z) : M A := fun w => (Exit status, w).

(** The world after more events. *)
Definition log (w : World) (evs : list event) : World :=
  {| environ := environ w; stdin := stdin w; popen := popen w;
     trace := trace w ++ evs |}.

Definition emit (e : event) : M unit := fun w => (Ok tt, log w [e]).

(** [print(s)].  The script prints its own literals, what was typed at
    its prompts and, in [Login], the token of the answer.  Standard
    output is taken to accept the text; for the token, which can hold
    code points no encoding writes (a lone surrogate makes [print] raise
    [UnicodeEncodeError]), the statements name the texts they are
    about. *)
Definition print (s : pystr) : M unit := emit (EvPrint s).

(** [input(prompt)]: the next line, or [EOFError] at the end of input. *)
Definition input (prompt : pystr) : M pystr :=
  emit (EvPrompt prompt) ;;
  fun w =>
    match stdin w with
    | [] => (Raise EOFError, w)
    | l :: ls => (Ok l, {| environ := environ w; stdin := ls;
                           popen := popen w; trace := trace w |})
    end.

(** [subprocess.Popen(cmd, ...).communicate()[0]].  The answer is the
    world's: [Popen] looks the program up along the [PATH] of
    [os.environ] and hands the environment to it, so [popen w] stands for
    the launches of a process with the environment [environ w]. *)
Definition communicate (cmd : list pystr) : M bytes :=
  emit (EvExec cmd) ;;
  fun w =>
    match popen w cmd with
    | Launched out => (Ok out, w)
    | LaunchError e => (Raise e, w)
    end.

(** The status the process ends with. *)
Definition exit_status {A} (o : Outcome A) : Z :=
  match o with
  | Ok _ => 0
  | Raise _ => 1
  | Exit n => n
  end.

(** ** The script *)

(** The environment variable used to read credentials. *)
Definition DSAPICRED_ENV : pystr := lit "DSAPICRED".

Definition nl : pystr := [10].
Definition spaces (n : nat) : pystr := repeat 32 n.

Definition token_url : pystr :=
  lit "https://accounts.google.com/o/oauth2/token".

(** The text [GetDSApiCredOrDie] prints when the variable is not set: a
    literal of three lines, the last one blank. *)
Definition missing_credentials_text : pystr :=
  lit "Cannot find credentials. You can pass them: client id, client secret, and refresh token via the --cred"
  ++ nl ++ spaces 12 ++ lit "flag or the DSAPICRED environment variable."
  ++ nl ++ spaces 8.

(** The messages of a failed [[a, b, c] = l]. *)
Definition unpack3 {A} (l : list pystr) (k : pystr -> pystr -> pystr -> M A)
  : M A :=
  match l with
  | [a; b; c] => k a b c
  | [] => raise (ValueError
            (lit "not enough values to unpack (expected 3, got 0)"))
  | [_] => raise (ValueError
            (lit "not enough values to unpack (expected 3, got 1)"))
  | [_; _] => raise (ValueError
            (lit "not enough values to unpack (expected 3, got 2)"))
  | _ => raise (ValueError (lit "too many values to unpack (expected 3)"))
  end.

Section Script.
(** Three parts of Python the script reaches but does not define:
    [str.isprintable] above ASCII, which [repr] consults, [str(v)] for a
    decoded value [v] that is not a string, and the room the recursion
    limit leaves [json.loads] for nested containers. *)
Variable isprintable : N -> bool.
Variable str_of_value : json -> pystr.
Variable recursion_room : nat.

(** [str(v)], as [format] applies it *)
Definition py_str (v : json) : pystr :=
  match v with
  | JString s => s
  | _ => str_of_value v
  end.

(** The line [RunCommand] prints first. *)
Definition running_line (cmd : list pystr) : pystr :=
  lit "running command: " ++ list_str isprintable cmd.

Definition RunCommand (cmd : list pystr) : M bytes :=
  print (running_line cmd) ;;
  print (lit "") ;;
  out <- communicate cmd ;;
  ret out.

(** The URL [Login] shows, for a scope and a client id. *)
Definition auth_url (scope cid : pystr) : pystr :=
  lit "https://accounts.google.com/o/oauth2/auth?"
  ++ lit "scope=https%3A%2F%2Fwww.googleapis.com%2Fauth%2F"
  ++ scope
  ++ lit "&redirect_uri=urn:ietf:wg:oauth:2.0:oob"
  ++ lit "&response_type=code"
  ++ lit "&access_type=offline"
  ++ lit "&client_id=" ++ cid.

(** The command [Login] runs to exchange the code. *)
Definition login_cmd (code cid csc : pystr) : list pystr :=
  [ lit "curl"; lit "-s"; lit "--data";
    lit "code=" ++ code
    ++ lit "&client_id=" ++ cid
    ++ lit "&client_secret=" ++ csc
    ++ lit "&redirect_uri=urn:ietf:wg:oauth:2.0:oob"
    ++ lit "&grant_type=authorization_code";
    token_url ].

Definition Login : M unit :=
  print (lit "") ;;
  print (lit "This script requires setting up a Google API project.") ;;
  print (lit "If you have not done so, follow these instructions:") ;;
  print (lit "1. Visit https://console.developers.google.com") ;;
  print (lit "2. Create a new project and go to " ++ lit dq
         ++ lit "API & auth -> credentials" ++ lit dq ++ lit ".") ;;
  print (lit "4. Create an OAuth2 client ID.") ;;
  print (lit "5. When picking application type, choose " ++ lit dq
         ++ lit "Installed application" ++ lit dq ++ lit ", "
         ++ lit "type " ++ lit dq ++ lit "Other" ++ lit dq ++ lit ".") ;;
  print (lit "6. Enter the cliend id and client secret below:") ;;
  print (lit "") ;;
  cid0 <- input (lit "Client ID: ") ;;
  let cid := strip cid0 in
  csc0 <- input (lit "Client secret: ") ;;
  let csc := strip csc0 in
  print (lit "Please go to https://developers.google.com/oauthplayground/") ;;
  print (lit "and type the scope of your application (e.g analytics)") ;;
  scope0 <- input (lit "Scope: ") ;;
  let scope := strip scope0 in
  print (lit "") ;;
  print (lit "Please open the following URL in the browser to authenticate. "
         ++ lit "When successful, the browser will display a code. "
         ++ lit "Enter the code below.") ;;
  print (lit "") ;;
  print (auth_url scope cid) ;;
  print (lit "") ;;
  code0 <- input (lit "Code: ") ;;
  let code := strip code0 in
  print (lit "") ;;
  output <- RunCommand (login_cmd code cid csc) ;;
  match json_loads recursion_room output with
  | inl e => raise e
  | inr json_output =>
      match py_in (lit "refresh_token") json_output with
      | None => raise TypeError
      | Some true =>
          print (lit "Login successful.") ;;
          print (lit "") ;;
          print (lit "# DSAPI credentials: " ++ lit dq
                 ++ lit "client_id,client_secret,refresh_token"
                 ++ lit dq) ;;
          match py_getitem (lit "refresh_token") json_output with
          | None => raise TypeError
          | Some tok =>
              print (cid ++ lit "," ++ nl ++ csc ++ lit "," ++ nl
                     ++ py_str tok) ;;
              print (lit "")
          end
      | Some false =>
          raise (ValueError (lit "Missing refresh_token in response: "
                             ++ bytes_repr output))
      end
  end.

(** [options] is not consulted: the [--cred] branch is commented out. *)
Definition GetDSApiCredOrDie (options : Values) : M pystr :=
  fun w =>
    match environ w !! DSAPICRED_ENV with
    | Some v => ret (strip v) w
    | None => (print missing_credentials_text ;; sys_exit (-1)%Z) w
    end.

(** The command [GetAccessTokenOrDie] runs. *)
Definition refresh_cmd (refresh_token cid csc : pystr) : list pystr :=
  [ lit "curl"; lit "--data";
    lit "refresh_token=" ++ refresh_token
    ++ lit "&client_id=" ++ cid
    ++ lit "&client_secret=" ++ csc
    ++ lit "&grant_type=refresh_token";
    token_url ].

Definition GetAccessTokenOrDie (options : Values) : M json :=
  cred <- GetDSApiCredOrDie options ;;
  unpack3 (split 44 cred) (fun cid csc refresh_token =>
    output <- RunCommand (refresh_cmd refresh_token cid csc) ;;
    match json_loads recursion_room output with
    | inl e => raise e
    | inr json_output =>
        match py_in (lit "access_token") json_output with
        | None => raise TypeError
        | Some true =>
            match py_getitem (lit "access_token") json_output with
            | None => raise TypeError
            | Some tok => ret tok
            end
        | Some false =>
            raise (ValueError (lit "missing access_token in response: "
                               ++ bytes_repr output))
        end
    end).

(** The command [Logout] runs. *)
Definition revoke_cmd (refresh_token : pystr) : list pystr :=
  [ lit "curl";
    lit "https://accounts.google.com/o/oauth2/revoke?token="
    ++ refresh_token ].

Definition Logout (options : Values) : M unit :=
  ds3_token <- GetDSApiCredOrDie options ;;
  unpack3 (split 44 ds3_token) (fun _ _ refresh_token =>
    _ <- RunCommand (revoke_cmd refresh_token) ;;
    ret tt).

Definition Main (argv : list pystr) : M unit :=
  match parse_args argv with
  | HelpRequested => emit EvHelp ;; sys_exit 0%Z
  | UsageError e => emit (EvUsage e) ;; sys_exit 2%Z
  | Parsed options =>
      if login options then Login
      else if logout options then Logout options
      else emit EvHelp
  end.

Definition is_exec (e : event) : bool :=
  match e with
  | EvExec _ => true
  | _ => false
  end.

(** Every launch in a run of events comes right after the two lines
    [RunCommand] prints for that command. *)
Inductive announced : list event -> Prop :=
| announced_nil : announced []
| announced_run cmd rest :
    announced rest ->
    announced (EvPrint (running_line cmd) :: EvPrint (lit "")
               :: EvExec cmd :: rest)
| announced_other e rest :
    is_exec e = false -> announced rest -> announced (e :: rest).

(** A byte [repr] leaves alone when the quote is a single quote. *)
Definition plain_byte (c : N) : bool :=
  (32 <=? c) && (c <? 127) && negb (c =? squote) && negb (c =? backslash).

(** What [Login] prints and asks up to the prompt for the code. *)
Definition login_dialogue (cid scope : pystr) : list event :=
  [ EvPrint (lit "");
    EvPrint (lit "This script requires setting up a Google API project.");
    EvPrint (lit "If you have not done so, follow these instructions:");
    EvPrint (lit "1. Visit https://console.developers.google.com");
    EvPrint (lit "2. Create a new project and go to " ++ lit dq
             ++ lit "API & auth -> credentials" ++ lit dq ++ lit ".");
    EvPrint (lit "4. Create an OAuth2 client ID.");
    EvPrint (lit "5. When picking application type, choose " ++ lit dq
             ++ lit "Installed application" ++ lit dq ++ lit ", "
             ++ lit "type " ++ lit dq ++ lit "Other" ++ lit dq ++ lit ".");
    EvPrint (lit "6. Enter the cliend id and client secret below:");
    EvPrint (lit "");
    EvPrompt (lit "Client ID: ");
    EvPrompt (lit "Client secret: ");
    EvPrint (lit "Please go to https://developers.google.com/oauthplayground/");
    EvPrint (lit "and type the scope of your application (e.g analytics)");
    EvPrompt (lit "Scope: ");
    EvPrint (lit "");
    EvPrint (lit "Please open the following URL in the browser to authenticate. "
             ++ lit "When successful, the browser will display a code. "
             ++ lit "Enter the code below.");
    EvPrint (lit "");
    EvPrint (auth_url scope cid);
    EvPrint (lit "");
    EvPrompt (lit "Code: ") ].

(** The world [w] with [lines] left to read and [evs] added to the
    trace. *)
Definition feed (w : World) (lines : list pystr) (evs : list event)
  : World :=
  {| environ := environ w; stdin := lines; popen := popen w;
     trace := trace w ++ evs |}.

(** The world when [Login] has launched its command. *)
Definition login_exchanged (w : World) (rest : list pystr)
    (cid csc scope code : pystr) : World :=
  feed w rest
    (login_dialogue cid scope
     ++ [ EvPrint (lit "");
          EvPrint (running_line (login_cmd code cid csc));
          EvPrint (lit "");
          EvExec (login_cmd code cid csc) ]).

(** An action that only adds announced launches to the trace. *)
Definition announces {A} (m : M A) : Prop :=
  forall w, exists evs,
    trace (snd (m w)) = trace w ++ evs /\ announced evs.

(** The text of a JSON object with one member, both strings, written
    without white space. *)
Definition json_object1 (key value : string) : bytes :=
  String.concat EmptyString
    [ "{"%string; dq; key; dq; ":"%string; dq; value; dq; "}"%string ].

Definition lf : string := String (ascii_of_nat 10) EmptyString.

(** An error answer laid out over three lines, as the token endpoint
    sends it. *)
Definition error_body : bytes :=
  String.concat EmptyString
    [ "{"%string; lf; "  "%string; dq; "error"%string; dq; ": "%string;
      dq; "invalid_grant"%string; dq; lf; "}"%string ].

(** The two flags of the command line. *)
Definition is_flag (a : pystr) : Prop :=
  a = lit "--login" \/ a = lit "--logout".

(** A world at the start of a run: the environment, the lines the user
    will type and what any launched command will print. *)
Definition start (env : gmap pystr pystr) (lines : list pystr)
    (answer : bytes) : World :=
  {| environ := env; stdin := lines; popen := fun _ => Launched answer;
     trace := [] |}.

(** No flag on the command line. *)
Definition no_flags : Values := {| login := false; logout := false |}.

(** One way to fill the three open parts of Python: no code point above
    ASCII counts as printable, a value that is not a string prints as the
    empty text, and the scanner can enter twenty levels inside the
    outermost. *)
Definition ascii_printable (c : N) : bool := false.
Definition no_text (v : json) : pystr := [].
Definition some_room : nat := 20.

(** The commands launched in a run of events, in order. *)
Fixpoint launched (evs : list event) : list (list pystr) :=
  match evs with
  | [] => []
  | EvExec cmd :: rest => cmd :: launched rest
  | _ :: rest => launched rest
  end.

(** The number of commas of a credential string. *)
Definition commas (s : pystr) : nat := count_occ N.eq_dec s 44.

(** A text of code points below 128, which every encoding in use for
    standard output can write. *)
Definition ascii_text (s : pystr) : bool := forallb (fun c => c <? 128) s.

(** The decoded values that are neither a dictionary, a list nor a
    string: numbers, [true], [false] and [null]. *)
Definition is_scalar (j : json) : bool :=
  match j with
  | JNull | JBool _ | JInt _ | JFloat _ => true
  | _ => false
  end.

(** What [Login] prints and asks when the input ends before the code is
    typed: the dialogue up to the prompt that finds no line. *)
Definition login_eof_events (lines : list pystr) : list event :=
  firstn (match length lines with
          | 0 => 10
          | 1 => 11
          | 2 => 14
          | _ => 20
          end)%nat
    (login_dialogue (strip (nth 0 lines [])) (strip (nth 2 lines []))).

(** What [Login] prints when the answer holds a refresh token. *)
Definition login_report (cid csc : pystr) (tok : json) : list event :=
  [ EvPrint (lit "Login successful.");
    EvPrint (lit "");
    EvPrint (lit "# DSAPI credentials: " ++ lit dq
             ++ lit "client_id,client_secret,refresh_token" ++ lit dq);
    EvPrint (cid ++ lit "," ++ nl ++ csc ++ lit "," ++ nl ++ py_str tok);
    EvPrint (lit "") ].

(** An action that launches at most one command, and only [curl]. *)
Definition one_curl_at_most {A} (m : M A) : Prop :=
  forall w, exists evs,
    trace (snd (m w)) = trace w ++ evs
    /\ (length (launched evs) <= 1)%nat
    /\ Forall (fun cmd => head cmd = Some (lit "curl")) (launched evs).

(** * Properties *)

(** ** Strings *)

Lemma split_no_sep (s : pystr) : ~ In 44 s -> split 44 s = [s].
Proof.
  induction s as [|c s IH]; intros Hn; [reflexivity|].
  cbn [split]. destruct (N.eqb_spec c 44) as [->|Hc].
  - exfalso. apply Hn. now left.
  - rewrite IH; [reflexivity|]. intros Hin. apply Hn. now right.
Qed.

Lemma split_field (a rest : pystr) :
  ~ In 44 a -> split 44 (a ++ 44 :: rest) = a :: split 44 rest.
Proof.
  induction a as [|c a IH]; intros Hn; [reflexivity|].
  cbn [app split]. destruct (N.eqb_spec c 44) as [->|Hc].
  - exfalso. apply Hn. now left.
  - rewrite IH; [reflexivity|]. intros Hin. apply Hn. now right.
Qed.

Lemma split_triple (a b c : pystr) :
  ~ In 44 a -> ~ In 44 b -> ~ In 44 c ->
  split 44 (a ++ lit "," ++ b ++ lit "," ++ c) = [a; b; c].
Proof.
  intros Ha Hb Hc. change (lit ",") with [44]. cbn [app].
  rewrite (split_field a), (split_field b), (split_no_sep c); auto.
Qed.

Lemma lstrip_spec (s : pystr) :
  exists l, s = l ++ lstrip s /\ forallb isspace l = true.
Proof.
  induction s as [|c s [l [Hs Hl]]]; [now exists []|].
  cbn [lstrip]. destruct (isspace c) eqn:Hc.
  - exists (c :: l). cbn. rewrite Hc, Hl. split; [now f_equal|reflexivity].
  - now exists [].
Qed.

Lemma lstrip_head (s : pystr) (c : N) :
  head (lstrip s) = Some c -> isspace c = false.
Proof.
  induction s as [|d s IH]; [discriminate|].
  cbn [lstrip]. destruct (isspace d) eqn:Hd; [exact IH|].
  cbn. intros [= <-]. exact Hd.
Qed.

Lemma rstrip_spec (s : pystr) :
  exists r, s = rstrip s ++ r /\ forallb isspace r = true.
Proof.
  unfold rstrip. destruct (lstrip_spec (rev s)) as [l [Hs Hl]].
  exists (rev l). split.
  - rewrite <- rev_app_distr, <- Hs. now rewrite rev_involutive.
  - rewrite forallb_forall in *. intros x Hx. apply Hl.
    now apply in_rev.
Qed.

Lemma rstrip_last (s : pystr) (c : N) :
  last (rstrip s) = Some c -> isspace c = false.
Proof.
  unfold rstrip. rewrite rev_alt.
  change (rev_append ?l []) with (reverse l). rewrite last_reverse.
  apply lstrip_head.
Qed.

Lemma head_prefix (a b : pystr) (c : N) :
  head a = Some c -> head (a ++ b) = Some c.
Proof. destruct a; [discriminate|trivial]. Qed.

Lemma strip_spec (s : pystr) :
  (exists l r, s = l ++ strip s ++ r
               /\ forallb isspace l = true /\ forallb isspace r = true)
  /\ (forall c, head (strip s) = Some c -> isspace c = false)
  /\ (forall c, last (strip s) = Some c -> isspace c = false).
Proof.
  unfold strip. split; [|split].
  - destruct (lstrip_spec s) as [l [Hs Hl]].
    destruct (rstrip_spec (lstrip s)) as [r [Ht Hr]].
    exists l, r. now rewrite <- Ht.
  - intros c Hc. destruct (rstrip_spec (lstrip s)) as [r [Ht _]].
    apply (lstrip_head s). rewrite Ht. now apply head_prefix.
  - apply rstrip_last.
Qed.

(** ** The scanner never runs out of fuel *)

Lemma skip_ws_length (s : pystr) : (length (skip_ws s) <= length s)%nat.
Proof.
  induction s as [|c s IH]; cbn [skip_ws]; [lia|].
  destruct (is_ws c); cbn [length]; lia.
Qed.

Lemma next_is_length (c : N) (s : pystr) :
  next_is c s = true -> (length (tl s) < length s)%nat.
Proof. destruct s; [discriminate|]. cbn. lia. Qed.

Lemma span_digits_length (s : pystr) :
  (length (snd (span_digits s)) <= length s)%nat.
Proof.
  induction s as [|c s IH]; cbn [span_digits]; [cbn; lia|].
  destruct (is_digit c); [|cbn; lia].
  destruct (span_digits s) as [d r]. cbn [snd length] in *. lia.
Qed.

Lemma hex4_length (s r : pystr) (u : N) :
  hex4 s = Some (u, r) -> (length r + 4 = length s)%nat.
Proof.
  destruct s as [|a [|b [|c [|d s]]]]; try discriminate.
  cbn [hex4]. destruct (hex_value a), (hex_value b), (hex_value c),
    (hex_value d); cbn; try discriminate.
  intros [= _ <-]. lia.
Qed.

Lemma scanstring_eq (n : nat) (s : pystr) :
  scanstring (S n) s
  = match s with
    | [] => None
    | c :: r =>
      if c =? 34 then Some ([], r)
      else if c =? 92 then
        match r with
        | [] => None
        | e :: r' =>
          if e =? 117 then
            '(u, r2) ← hex4 r';
            if is_high u && startswith (lit "\u") r2 then
              '(u2, r4) ← hex4 (skipn 2 r2);
              if is_low u2 then
                '(t, rest) ← scanstring n r4;
                Some (join_surrogates u u2 :: t, rest)
              else
                '(t, rest) ← scanstring n r2;
                Some (u :: t, rest)
            else
              '(t, rest) ← scanstring n r2;
              Some (u :: t, rest)
          else
            x ← simple_escape e;
            '(t, rest) ← scanstring n r';
            Some (x :: t, rest)
        end
      else if c <? 32 then None
      else
        '(t, rest) ← scanstring n r;
        Some (c :: t, rest)
    end.
Proof. reflexivity. Qed.

Lemma scanstring_fuel (n : nat) :
  forall s, (length s < n)%nat -> scanstring (S n) s = scanstring n s.
Proof.
  induction n as [|n IH]; intros s Hn; [lia|].
  rewrite (scanstring_eq (S n)), (scanstring_eq n).
  destruct s as [|c r]; [reflexivity|]. cbn [length] in Hn.
  destruct (c =? 34); [reflexivity|].
  destruct (c =? 92).
  - destruct r as [|e r']; [reflexivity|]. cbn [length] in Hn.
    destruct (e =? 117).
    + destruct (hex4 r') as [[u r2]|] eqn:H4; [|reflexivity].
      apply hex4_length in H4. cbn [mbind option_bind].
      destruct (is_high u && startswith (lit "\u") r2).
      * destruct (hex4 (skipn 2 r2)) as [[u2 r4]|] eqn:H5; [|reflexivity].
        apply hex4_length in H5. pose proof (length_skipn 2 r2) as Hs.
        cbn [mbind option_bind].
        destruct (is_low u2); rewrite IH by lia; reflexivity.
      * rewrite IH by lia. reflexivity.
    + destruct (simple_escape e); [|reflexivity].
      cbn [mbind option_bind]. rewrite IH by lia. reflexivity.
  - destruct (c <? 32); [reflexivity|]. rewrite IH by lia. reflexivity.
Qed.

Lemma scanstring_length (n : nat) :
  forall s t r, scanstring n s = Some (t, r) -> (length r < length s)%nat.
Proof.
  induction n as [|n IH]; intros s t r; [discriminate|].
  rewrite scanstring_eq.
  destruct s as [|c s]; [discriminate|]. cbn [length].
  destruct (c =? 34); [intros [= _ <-]; lia|].
  destruct (c =? 92).
  - destruct s as [|e s']; [discriminate|]. cbn [length].
    destruct (e =? 117).
    + destruct (hex4 s') as [[u r2]|] eqn:H4; [|discriminate].
      apply hex4_length in H4. cbn [mbind option_bind].
      destruct (is_high u && startswith (lit "\u") r2).
      * destruct (hex4 (skipn 2 r2)) as [[u2 r4]|] eqn:H5; [|discriminate].
        apply hex4_length in H5. pose proof (length_skipn 2 r2) as Hs.
        cbn [mbind option_bind].
        destruct (is_low u2).
        -- destruct (scanstring n r4) as [[t0 rest]|] eqn:E; [|discriminate].
           apply IH in E. intros [= _ <-]. lia.
        -- destruct (scanstring n r2) as [[t0 rest]|] eqn:E; [|discriminate].
           apply IH in E. intros [= _ <-]. lia.
      * destruct (scanstring n r2) as [[t0 rest]|] eqn:E; [|discriminate].
        apply IH in E. intros [= _ <-]. lia.
    + destruct (simple_escape e); [|discriminate]. cbn [mbind option_bind].
      destruct (scanstring n s') as [[t0 rest]|] eqn:E; [|discriminate].
      apply IH in E. intros [= _ <-]. lia.
  - destruct (c <? 32); [discriminate|].
    destruct (scanstring n s) as [[t0 rest]|] eqn:E; [|discriminate].
    apply IH in E. intros [= _ <-]. lia.
Qed.

Lemma scan_string_length (s t r : pystr) :
  scan_string s = Some (t, r) -> (length r < length s)%nat.
Proof. apply scanstring_length. Qed.

Lemma number_int_length (s ds r : pystr) :
  number_int s = Some (ds, r) -> (length r < length s)%nat.
Proof.
  destruct s as [|c s]; [discriminate|]. cbn [number_int length].
  destruct (c =? 48); [intros [= _ <-]; lia|].
  destruct (is_digit c); [|discriminate].
  pose proof (span_digits_length s) as Hs.
  destruct (span_digits s) as [d r0]. cbn [snd] in Hs.
  intros [= _ <-]. lia.
Qed.

Lemma number_frac_length (s : pystr) :
  (length (snd (number_frac s)) <= length s)%nat.
Proof.
  destruct s as [|p [|f s]]; cbn [number_frac snd]; try lia.
  destruct ((p =? 46) && is_digit f); [|cbn; lia]. cbn [tl].
  pose proof (span_digits_length (f :: s)) as Hs.
  destruct (span_digits (f :: s)) as [d r0]. cbn [snd length] in *. lia.
Qed.

Lemma number_exp_length (s : pystr) :
  (length (snd (number_exp s)) <= length s)%nat.
Proof.
  destruct s as [|e r]; cbn [number_exp snd]; [lia|].
  destruct ((e =? 101) || (e =? 69)); [|cbn; lia].
  destruct r as [|g r0].
  - cbn. lia.
  - destruct ((g =? 45) || (g =? 43)).
    + pose proof (span_digits_length r0) as Hs.
      destruct (span_digits r0) as [[|d0 d] r1]; cbn [snd length] in *; lia.
    + pose proof (span_digits_length (g :: r0)) as Hs.
      destruct (span_digits (g :: r0)) as [[|d0 d] r1];
        cbn [snd length] in *; lia.
Qed.

Lemma match_number_length (s r : pystr) (v : json) :
  match_number s = Some (v, r) -> (length r < length s)%nat.
Proof.
  unfold match_number.
  assert (Hs : (length (snd (number_sign s)) <= length s)%nat).
  { destruct s as [|c s]; cbn; [lia|]. destruct (c =? 45); cbn; lia. }
  destruct (number_sign s) as [neg s1]. cbn [snd] in Hs.
  destruct (number_int s1) as [[ds s2]|] eqn:Hi; [|discriminate].
  apply number_int_length in Hi. cbn [mbind option_bind].
  pose proof (number_frac_length s2) as Hf.
  destruct (number_frac s2) as [frac s3]. cbn [snd] in Hf.
  pose proof (number_exp_length s3) as He.
  destruct (number_exp s3) as [exp s4]. cbn [snd] in He.
  destruct frac, exp; intros [= _ <-]; lia.
Qed.

Lemma keyword_length (k : string) (v v0 : json) (s r : pystr) :
  k <> EmptyString ->
  keyword k v s = Some (v0, r) -> (length r < length s)%nat.
Proof.
  intros Hk. unfold keyword.
  destruct (startswith (lit k) s) eqn:E; [|discriminate].
  intros [= _ <-]. destruct k as [|a k]; [contradiction|].
  destruct s as [|c s]; [discriminate E|].
  rewrite length_skipn. cbn. lia.
Qed.

Lemma scan_once_eq (n d : nat) (s : pystr) :
  scan_once (S n) d s
  = match s with
    | [] => Malformed
    | c :: r =>
      if c =? 34 then
        '(t, rest) ← of_option (scan_string r); Scanned (JString t, rest)
      else if c =? 123 then
        match d with
        | O => TooDeep
        | S d' =>
          let r' := skip_ws r in
          if next_is 125 r' then Scanned (JObject [], tl r')
          else '(kvs, rest) ← members n d' r'; Scanned (JObject kvs, rest)
        end
      else if c =? 91 then
        match d with
        | O => TooDeep
        | S d' =>
          let r' := skip_ws r in
          if next_is 93 r' then Scanned (JArray [], tl r')
          else '(vs, rest) ← elements n d' r'; Scanned (JArray vs, rest)
        end
      else
        of_option
        match keyword "null" JNull s with Some x => Some x | None =>
        match keyword "true" (JBool true) s with Some x => Some x | None =>
        match keyword "false" (JBool false) s with Some x => Some x | None =>
        match keyword "NaN" (JFloat (lit "NaN")) s with
        | Some x => Some x | None =>
        match keyword "Infinity" (JFloat (lit "Infinity")) s with
        | Some x => Some x | None =>
        match keyword "-Infinity" (JFloat (lit "-Infinity")) s with
        | Some x => Some x | None =>
        match_number s
        end end end end end end
    end.
Proof. reflexivity. Qed.

Lemma elements_eq (n d : nat) (s : pystr) :
  elements (S n) d s
  = '(v, r) ← scan_once n d s;
    let r' := skip_ws r in
    if next_is 93 r' then Scanned ([v], tl r')
    else if next_is 44 r' then
      '(vs, rest) ← elements n d (skip_ws (tl r')); Scanned (v :: vs, rest)
    else Malformed.
Proof. reflexivity. Qed.

Lemma members_eq (n d : nat) (s : pystr) :
  members (S n) d s
  = if next_is 34 s then
      '(k, r1) ← of_option (scan_string (tl s));
      let r1' := skip_ws r1 in
      if next_is 58 r1' then
        '(v, r3) ← scan_once n d (skip_ws (tl r1'));
        let r3' := skip_ws r3 in
        if next_is 125 r3' then Scanned ([(k, v)], tl r3')
        else if next_is 44 r3' then
          '(kvs, rest) ← members n d (skip_ws (tl r3'));
          Scanned ((k, v) :: kvs, rest)
        else Malformed
      else Malformed
    else Malformed.
Proof. reflexivity. Qed.

(** What the scanner leaves is shorter than what it was given. *)
Lemma scanner_length (n : nat) :
  (forall d s v r,
      scan_once n d s = Scanned (v, r) -> (length r < length s)%nat)
  /\ (forall d s vs r,
        elements n d s = Scanned (vs, r) -> (length r < length s)%nat)
  /\ (forall d s kvs r,
        members n d s = Scanned (kvs, r) -> (length r < length s)%nat).
Proof.
  induction n as [|n (IHs & IHe & IHm)];
    [repeat split; intros; discriminate|].
  split; [|split].
  - intros d s v r. rewrite scan_once_eq.
    destruct s as [|c s]; [discriminate|].
    destruct (c =? 34).
    { destruct (scan_string s) as [[t rest]|] eqn:E; [|discriminate].
      apply scan_string_length in E. intros [= _ <-]. cbn. lia. }
    pose proof (skip_ws_length s) as Hw.
    destruct (c =? 123).
    { destruct d as [|d]; [discriminate|]. cbv zeta.
      destruct (next_is 125 (skip_ws s)) eqn:Hn.
      - apply next_is_length in Hn. intros [= _ <-]. cbn. lia.
      - destruct (members n d (skip_ws s)) as [[kvs rest]| |] eqn:E;
          [|discriminate|discriminate].
        apply IHm in E. intros [= _ <-]. cbn. lia. }
    destruct (c =? 91).
    { destruct d as [|d]; [discriminate|]. cbv zeta.
      destruct (next_is 93 (skip_ws s)) eqn:Hn.
      - apply next_is_length in Hn. intros [= _ <-]. cbn. lia.
      - destruct (elements n d (skip_ws s)) as [[vs rest]| |] eqn:E;
          [|discriminate|discriminate].
        apply IHe in E. intros [= _ <-]. cbn. lia. }
    repeat match goal with
           | |- of_option (match keyword ?k ?x ?l with _ => _ end) = _ -> _ =>
               let E := fresh "E" in
               destruct (keyword k x l) as [[? ?]|] eqn:E;
                 [apply keyword_length in E; [|discriminate];
                  intros [= _ <-]; exact E|]
           end.
    destruct (match_number (c :: s)) as [[v0 r0]|] eqn:En; [|discriminate].
    apply match_number_length in En. now intros [= _ <-].
  - intros d s vs r. rewrite elements_eq.
    destruct (scan_once n d s) as [[v r0]| |] eqn:E;
      [|discriminate|discriminate].
    apply IHs in E. cbn [mbind scan_bind]. cbv zeta.
    pose proof (skip_ws_length r0) as Hw.
    destruct (next_is 93 (skip_ws r0)) eqn:Hn.
    + apply next_is_length in Hn. intros [= _ <-]. lia.
    + destruct (next_is 44 (skip_ws r0)) eqn:Hc; [|discriminate].
      apply next_is_length in Hc.
      pose proof (skip_ws_length (tl (skip_ws r0))) as Hw2.
      destruct (elements n d (skip_ws (tl (skip_ws r0))))
        as [[vs0 rest]| |] eqn:E2; [|discriminate|discriminate].
      apply IHe in E2. intros [= _ <-]. lia.
  - intros d s kvs r. rewrite members_eq.
    destruct (next_is 34 s) eqn:Hq; [|discriminate].
    apply next_is_length in Hq.
    destruct (scan_string (tl s)) as [[k r1]|] eqn:E; [|discriminate].
    apply scan_string_length in E. cbn [of_option mbind scan_bind]. cbv zeta.
    pose proof (skip_ws_length r1) as Hw1.
    destruct (next_is 58 (skip_ws r1)) eqn:Hc; [|discriminate].
    apply next_is_length in Hc.
    pose proof (skip_ws_length (tl (skip_ws r1))) as Hw2.
    destruct (scan_once n d (skip_ws (tl (skip_ws r1))))
      as [[v r3]| |] eqn:E2; [|discriminate|discriminate].
    apply IHs in E2. cbn [mbind scan_bind].
    pose proof (skip_ws_length r3) as Hw3.
    destruct (next_is 125 (skip_ws r3)) eqn:Hn.
    + apply next_is_length in Hn. intros [= _ <-]. lia.
    + destruct (next_is 44 (skip_ws r3)) eqn:Hk; [|discriminate].
      apply next_is_length in Hk.
      pose proof (skip_ws_length (tl (skip_ws r3))) as Hw4.
      destruct (members n d (skip_ws (tl (skip_ws r3))))
        as [[kvs0 rest]| |] eqn:E3; [|discriminate|discriminate].
      apply IHm in E3. intros [= _ <-]. lia.
Qed.

(** With fuel above twice the length of the text, one more unit of fuel
    changes nothing. *)
Lemma scanner_fuel_step (n : nat) :
  (forall d s, (2 * length s + 2 <= n)%nat ->
               scan_once (S n) d s = scan_once n d s)
  /\ (forall d s, (2 * length s + 3 <= n)%nat ->
                  elements (S n) d s = elements n d s)
  /\ (forall d s, (2 * length s + 3 <= n)%nat ->
                  members (S n) d s = members n d s).
Proof.
  induction n as [|n (IHs & IHe & IHm)];
    [repeat split; intros; lia|].
  destruct (scanner_length n) as (Ls & _ & _).
  split; [|split].
  - intros d s Hn. rewrite (scan_once_eq (S n)), (scan_once_eq n).
    destruct s as [|c s]; [reflexivity|]. cbn [length] in Hn.
    pose proof (skip_ws_length s) as Hw.
    destruct d as [|d]; [reflexivity|]. cbv zeta.
    rewrite (IHm d (skip_ws s)), (IHe d (skip_ws s)) by lia. reflexivity.
  - intros d s Hn. rewrite (elements_eq (S n)), (elements_eq n).
    rewrite (IHs d s) by lia.
    destruct (scan_once n d s) as [[v r0]| |] eqn:E;
      [|reflexivity|reflexivity].
    apply Ls in E. cbn [mbind scan_bind]. cbv zeta.
    destruct (next_is 93 (skip_ws r0)); [reflexivity|].
    destruct (next_is 44 (skip_ws r0)) eqn:Hc; [|reflexivity].
    apply next_is_length in Hc.
    pose proof (skip_ws_length r0) as Hw.
    pose proof (skip_ws_length (tl (skip_ws r0))) as Hw2.
    rewrite IHe by lia. reflexivity.
  - intros d s Hn. rewrite (members_eq (S n)), (members_eq n).
    destruct (next_is 34 s) eqn:Hq; [|reflexivity].
    apply next_is_length in Hq.
    destruct (scan_string (tl s)) as [[k r1]|] eqn:E; [|reflexivity].
    apply scan_string_length in E. cbn [of_option mbind scan_bind]. cbv zeta.
    pose proof (skip_ws_length r1) as Hw1.
    destruct (next_is 58 (skip_ws r1)) eqn:Hc; [|reflexivity].
    apply next_is_length in Hc.
    pose proof (skip_ws_length (tl (skip_ws r1))) as Hw2.
    rewrite IHs by lia.
    destruct (scan_once n d (skip_ws (tl (skip_ws r1))))
      as [[v r3]| |] eqn:E2; [|reflexivity|reflexivity].
    apply Ls in E2. cbn [mbind scan_bind].
    pose proof (skip_ws_length r3) as Hw3.
    destruct (next_is 125 (skip_ws r3)); [reflexivity|].
    destruct (next_is 44 (skip_ws r3)) eqn:Hk; [|reflexivity].
    apply next_is_length in Hk.
    pose proof (skip_ws_length (tl (skip_ws r3))) as Hw4.
    rewrite IHm by lia. reflexivity.
Qed.

(** The fuel [json_decode] gives the scanner is enough: any larger
    amount gives the same result. *)
Lemma scan_once_fuel (d : nat) (s : pystr) (extra : nat) :
  scan_once (2 * length s + 2 + extra) d s
  = scan_once (2 * length s + 2) d s.
Proof.
  induction extra as [|k IH].
  - f_equal. lia.
  - replace (2 * length s + 2 + S k)%nat
      with (S (2 * length s + 2 + k))%nat by lia.
    rewrite (proj1 (scanner_fuel_step _)) by lia. exact IH.
Qed.


(** More room changes no answer other than [TooDeep]. *)
Lemma scanner_room (n : nat) :
  (forall d s, scan_once n d s <> TooDeep ->
               scan_once n (S d) s = scan_once n d s)
  /\ (forall d s, elements n d s <> TooDeep ->
                  elements n (S d) s = elements n d s)
  /\ (forall d s, members n d s <> TooDeep ->
                  members n (S d) s = members n d s).
Proof.
  induction n as [|n (IHs & IHe & IHm)];
    [repeat split; intros; reflexivity|].
  split; [|split].
  - intros d s. rewrite (scan_once_eq n (S d)), (scan_once_eq n d).
    destruct s as [|c s]; [reflexivity|].
    destruct (c =? 34); [reflexivity|].
    destruct (c =? 123).
    { destruct d as [|d]; [congruence|]. cbv zeta.
      destruct (next_is 125 (skip_ws s)); [reflexivity|].
      intros H. rewrite IHm; [reflexivity|].
      intros E. rewrite E in H. now apply H. }
    destruct (c =? 91).
    { destruct d as [|d]; [congruence|]. cbv zeta.
      destruct (next_is 93 (skip_ws s)); [reflexivity|].
      intros H. rewrite IHe; [reflexivity|].
      intros E. rewrite E in H. now apply H. }
    reflexivity.
  - intros d s. rewrite (elements_eq n (S d)), (elements_eq n d).
    intros H. rewrite IHs by (intros E; rewrite E in H; now apply H).
    destruct (scan_once n d s) as [[v r0]| |]; [|reflexivity|reflexivity].
    cbn [mbind scan_bind] in *. cbv zeta in *.
    destruct (next_is 93 (skip_ws r0)); [reflexivity|].
    destruct (next_is 44 (skip_ws r0)); [|reflexivity].
    rewrite IHe by (intros E; rewrite E in H; now apply H). reflexivity.
  - intros d s. rewrite (members_eq n (S d)), (members_eq n d).
    destruct (next_is 34 s); [|reflexivity].
    destruct (scan_string (tl s)) as [[k r1]|]; [|reflexivity].
    cbn [of_option mbind scan_bind]. cbv zeta.
    destruct (next_is 58 (skip_ws r1)); [|reflexivity].
    intros H. rewrite IHs by (intros E; rewrite E in H; now apply H).
    destruct (scan_once n d (skip_ws (tl (skip_ws r1))))
      as [[v r3]| |]; [|reflexivity|reflexivity].
    cbn [mbind scan_bind] in *.
    destruct (next_is 125 (skip_ws r3)); [reflexivity|].
    destruct (next_is 44 (skip_ws r3)); [|reflexivity].
    rewrite IHm by (intros E; rewrite E in H; now apply H). reflexivity.
Qed.

Lemma scan_string_fuel (s : pystr) (extra : nat) :
  scanstring (S (length s) + extra) s = scan_string s.
Proof.
  unfold scan_string. induction extra as [|k IH].
  - f_equal. lia.
  - replace (S (length s) + S k)%nat
      with (S (S (length s) + k))%nat by lia.
    rewrite scanstring_fuel by lia. exact IH.
Qed.

(** ** The length of a decoded text *)











(** ** Running the operations *)

Lemma unpack3_bad {A} (l : list pystr) (k : pystr -> pystr -> pystr -> M A)
    (w : World) :
  length l <> 3%nat -> exists msg, unpack3 l k w = (Raise (ValueError msg), w).
Proof.
  intros Hl. destruct l as [|a [|b [|c [|d l]]]]; cbn in Hl;
    try (eexists; reflexivity). now contradict Hl.
Qed.

Lemma cred_found (options : Values) (w : World) (v : pystr) :
  environ w !! DSAPICRED_ENV = Some v ->
  GetDSApiCredOrDie options w = (Ok (strip v), w).
Proof. intros H. unfold GetDSApiCredOrDie. now rewrite H. Qed.

Lemma cred_missing (options : Values) (w : World) :
  environ w !! DSAPICRED_ENV = None ->
  GetDSApiCredOrDie options w
  = (Exit (-1), log w [EvPrint missing_credentials_text]).
Proof. intros H. unfold GetDSApiCredOrDie. now rewrite H. Qed.

Lemma RunCommand_run (cmd : list pystr) (w : World) :
  RunCommand cmd w
  = (match popen w cmd with
     | Launched out => Ok out
     | LaunchError e => Raise e
     end,
     log w [EvPrint (running_line cmd); EvPrint (lit ""); EvExec cmd]).
Proof.
  unfold RunCommand, print, communicate, emit, bind, ret, log.
  cbn [environ stdin popen trace]. rewrite <- !app_assoc. cbn [app].
  now destruct (popen w cmd).
Qed.

(** C10: the accessor returns the value of the variable without its
    surrounding white space: the value is the result between two runs
    of white space, and the result neither starts nor ends with white
    space. *)
Theorem GetDSApiCredOrDie_strips (options : Values) (w : World)
    (v : pystr) :
  environ w !! DSAPICRED_ENV = Some v ->
  GetDSApiCredOrDie options w = (Ok (strip v), w)
  /\ (exists l r, v = l ++ strip v ++ r
                  /\ forallb isspace l = true /\ forallb isspace r = true)
  /\ (forall c, head (strip v) = Some c -> isspace c = false)
  /\ (forall c, last (strip v) = Some c -> isspace c = false).
Proof.
  intros H. split; [now apply cred_found|apply strip_spec].
Qed.

(** C4: without the variable, [GetAccessTokenOrDie] and [Logout] print
    the guidance and leave with status -1, and that line is all that
    happens: no command is launched. *)
Theorem missing_credentials_exit (options : Values) (w : World) :
  environ w !! DSAPICRED_ENV = None ->
  GetAccessTokenOrDie options w
  = (Exit (-1), log w [EvPrint missing_credentials_text])
  /\ Logout options w
     = (Exit (-1), log w [EvPrint missing_credentials_text])
  /\ exit_status (fst (Logout options w)) = (-1)%Z
  /\ exit_status (fst (GetAccessTokenOrDie options w)) = (-1)%Z.
Proof.
  intros H.
  assert (Ha : GetAccessTokenOrDie options w
               = (Exit (-1), log w [EvPrint missing_credentials_text])).
  { unfold GetAccessTokenOrDie, bind. now rewrite cred_missing. }
  assert (Hl : Logout options w
               = (Exit (-1), log w [EvPrint missing_credentials_text])).
  { unfold Logout, bind. now rewrite cred_missing. }
  rewrite Ha, Hl. repeat split.
Qed.

(** C5: a credential string that does not split on the comma into
    three fields makes [GetAccessTokenOrDie] raise the [ValueError] of
    the failed unpacking, with the world as it was: nothing printed,
    nothing launched. *)
Theorem GetAccessTokenOrDie_bad_shape (options : Values) (w : World)
    (v : pystr) :
  environ w !! DSAPICRED_ENV = Some v ->
  length (split 44 (strip v)) <> 3%nat ->
  exists msg,
    GetAccessTokenOrDie options w = (Raise (ValueError msg), w).
Proof.
  intros H Hl. unfold GetAccessTokenOrDie, bind.
  rewrite (cred_found _ _ _ H). now apply unpack3_bad.
Qed.

(** C1: for a credential string [A,B,C] of three fields,
    [GetAccessTokenOrDie] launches one command, [curl --data BODY URL]
    with the token endpoint, and [BODY] is
    [refresh_token=C&client_id=A&client_secret=B&grant_type=refresh_token]. *)
Theorem GetAccessTokenOrDie_request_body (options : Values) (w : World)
    (v A B C : pystr) :
  environ w !! DSAPICRED_ENV = Some v ->
  strip v = A ++ lit "," ++ B ++ lit "," ++ C ->
  ~ In 44 A -> ~ In 44 B -> ~ In 44 C ->
  let cmd :=
    [ lit "curl"; lit "--data";
      lit "refresh_token=" ++ C ++ lit "&client_id=" ++ A
      ++ lit "&client_secret=" ++ B ++ lit "&grant_type=refresh_token";
      lit "https://accounts.google.com/o/oauth2/token" ] in
  snd (GetAccessTokenOrDie options w)
  = log w [EvPrint (running_line cmd); EvPrint (lit ""); EvExec cmd].
Proof.
  intros H Hv HA HB HC cmd. unfold GetAccessTokenOrDie, bind.
  rewrite (cred_found _ _ _ H), Hv, split_triple by assumption.
  cbn [unpack3]. rewrite RunCommand_run. fold cmd.
  change (refresh_cmd C A B) with cmd.
  destruct (popen w cmd) as [out|e]; [|reflexivity].
  destruct (json_loads recursion_room out) as [e|j]; [reflexivity|].
  destruct (py_in _ j) as [[|]|]; try reflexivity.
  now destruct (py_getitem _ j).
Qed.

(** C6: for a credential string [A,B,C], [Logout] launches exactly one
    command, [curl URL] with the revoke endpoint and [token=C] appended
    as it is; what the command prints is dropped, and only a failure to
    launch it reaches the caller. *)
Theorem Logout_revokes (options : Values) (w : World) (v A B C : pystr) :
  environ w !! DSAPICRED_ENV = Some v ->
  strip v = A ++ lit "," ++ B ++ lit "," ++ C ->
  ~ In 44 A -> ~ In 44 B -> ~ In 44 C ->
  let cmd :=
    [ lit "curl";
      lit "https://accounts.google.com/o/oauth2/revoke?token=" ++ C ] in
  Logout options w
  = (match popen w cmd with
     | Launched _ => Ok tt
     | LaunchError e => Raise e
     end,
     log w [EvPrint (running_line cmd); EvPrint (lit ""); EvExec cmd]).
Proof.
  intros H Hv HA HB HC cmd. unfold Logout, bind.
  rewrite (cred_found _ _ _ H), Hv, split_triple by assumption.
  cbn [unpack3]. rewrite RunCommand_run.
  change (revoke_cmd C) with cmd.
  now destruct (popen w cmd).
Qed.

Lemma feed_start (w : World) : w = feed w (stdin w) [].
Proof. destruct w. unfold feed. cbn. now rewrite app_nil_r. Qed.

Lemma log_feed (w : World) (ls : list pystr) (evs more : list event) :
  log (feed w ls evs) more = feed w ls (evs ++ more).
Proof. unfold log, feed. cbn. now rewrite app_assoc. Qed.

Lemma step_print {A} (s : pystr) (k : unit -> M A) (w : World)
    (ls : list pystr) (evs : list event) :
  bind (print s) k (feed w ls evs) = k tt (feed w ls (evs ++ [EvPrint s])).
Proof. unfold bind, print, emit. now rewrite log_feed. Qed.

Lemma step_input {A} (p : pystr) (k : pystr -> M A) (w : World)
    (l : pystr) (ls : list pystr) (evs : list event) :
  bind (input p) k (feed w (l :: ls) evs)
  = k l (feed w ls (evs ++ [EvPrompt p])).
Proof.
  unfold bind, input, bind, emit. rewrite log_feed. reflexivity.
Qed.

Lemma step_input_eof {A} (p : pystr) (k : pystr -> M A) (w : World)
    (evs : list event) :
  bind (input p) k (feed w [] evs)
  = (Raise EOFError, feed w [] (evs ++ [EvPrompt p])).
Proof.
  unfold bind, input, bind, emit. rewrite log_feed. reflexivity.
Qed.

Lemma step_run {A} (cmd : list pystr) (k : bytes -> M A) (w : World)
    (ls : list pystr) (evs : list event) :
  bind (RunCommand cmd) k (feed w ls evs)
  = let w' := feed w ls (evs ++ [ EvPrint (running_line cmd);
                                  EvPrint (lit ""); EvExec cmd ]) in
    match popen w cmd with
    | Launched out => k out w'
    | LaunchError e => (Raise e, w')
    end.
Proof.
  unfold bind. rewrite RunCommand_run, log_feed. cbn [popen feed].
  now destruct (popen w cmd).
Qed.

Ltac step :=
  first [ rewrite step_print | rewrite step_input | rewrite step_input_eof
        | rewrite step_run ];
  cbv beta zeta.

Lemma Login_eof (w : World) (l1 l2 l3 : pystr) :
  stdin w = [l1; l2; l3] ->
  Login w = (Raise EOFError, feed w [] (login_dialogue (strip l1) (strip l3))).
Proof.
  intros H. rewrite (feed_start w) at 1. rewrite H.
  unfold Login. do 20 step. reflexivity.
Qed.

Lemma Login_run (w : World) (l1 l2 l3 l4 : pystr) (rest : list pystr) :
  stdin w = l1 :: l2 :: l3 :: l4 :: rest ->
  let cid := strip l1 in
  let csc := strip l2 in
  let w' := login_exchanged w rest cid csc (strip l3) (strip l4) in
  Login w
  = match popen w (login_cmd (strip l4) cid csc) with
    | LaunchError e => (Raise e, w')
    | Launched output =>
        match json_loads recursion_room output with
        | inl e => (Raise e, w')
        | inr j =>
            match py_in (lit "refresh_token") j with
            | None => (Raise TypeError, w')
            | Some false =>
                (Raise (ValueError
                          (lit "Missing refresh_token in response: "
                           ++ bytes_repr output)), w')
            | Some true =>
                match py_getitem (lit "refresh_token") j with
                | None =>
                    (Raise TypeError,
                     log w' [ EvPrint (lit "Login successful.");
                              EvPrint (lit "");
                              EvPrint (lit "# DSAPI credentials: "
                                       ++ lit dq
                                       ++ lit "client_id,client_secret,refresh_token"
                                       ++ lit dq) ])
                | Some tok =>
                    (Ok tt,
                     log w' [ EvPrint (lit "Login successful.");
                              EvPrint (lit "");
                              EvPrint (lit "# DSAPI credentials: "
                                       ++ lit dq
                                       ++ lit "client_id,client_secret,refresh_token"
                                       ++ lit dq);
                              EvPrint (cid ++ lit "," ++ nl ++ csc
                                       ++ lit "," ++ nl ++ py_str tok);
                              EvPrint (lit "") ])
                end
            end
        end
    end.
Proof.
  intros H cid csc w'. rewrite (feed_start w) at 1. rewrite H.
  unfold Login. do 22 step. fold cid csc.
  match goal with
  | |- context [feed w rest ?e] => change (feed w rest e) with w'
  end.
  destruct (popen w _) as [out|e]; [|reflexivity].
  destruct (json_loads recursion_room out) as [e|j]; [reflexivity|].
  destruct (py_in _ j) as [[|]|]; try reflexivity.
  unfold w', login_exchanged. do 3 step.
  destruct (py_getitem _ j); [step; unfold print, emit|unfold raise];
    rewrite !log_feed, <- !app_assoc; reflexivity.
Qed.

Lemma Login_exchange_shown (w : World) (l1 l2 l3 l4 : pystr)
    (rest : list pystr) :
  stdin w = l1 :: l2 :: l3 :: l4 :: rest ->
  exists more,
    trace (snd (Login w))
    = trace w ++ login_dialogue (strip l1) (strip l3)
      ++ [ EvPrint (lit "");
           EvPrint (running_line
                      (login_cmd (strip l4) (strip l1) (strip l2)));
           EvPrint (lit "");
           EvExec (login_cmd (strip l4) (strip l1) (strip l2)) ]
      ++ more.
Proof.
  intros H. rewrite (Login_run _ _ _ _ _ _ H). cbv zeta.
  unfold login_exchanged.
  assert (Hw : forall (o : Outcome unit) evs added, exists more,
             trace (snd (o, log (feed w rest
                                   (login_dialogue (strip l1) (strip l3)
                                    ++ evs)) added))
             = trace w ++ login_dialogue (strip l1) (strip l3)
               ++ evs ++ more).
  { intros o evs added. exists added. cbn [snd log feed trace].
    rewrite <- !app_assoc. reflexivity. }
  assert (Hw0 : forall (o : Outcome unit) evs, exists more,
             trace (snd (o, feed w rest
                              (login_dialogue (strip l1) (strip l3)
                               ++ evs)))
             = trace w ++ login_dialogue (strip l1) (strip l3)
               ++ evs ++ more).
  { intros o evs. exists []. cbn [snd feed trace].
    now rewrite app_nil_r. }
  destruct (popen w _) as [out|e]; [|apply Hw0].
  destruct (json_loads recursion_room out) as [e|j]; [apply Hw0|].
  destruct (py_in _ j) as [[|]|]; try apply Hw0.
  destruct (py_getitem _ j); apply Hw.
Qed.

Lemma Login_dialogue_shown (w : World) (l1 l2 l3 : pystr)
    (rest : list pystr) :
  stdin w = l1 :: l2 :: l3 :: rest ->
  exists more,
    trace (snd (Login w))
    = trace w ++ login_dialogue (strip l1) (strip l3) ++ more.
Proof.
  intros H. destruct rest as [|l4 rest].
  - rewrite (Login_eof _ _ _ _ H). exists []. cbn [snd feed trace].
    now rewrite app_nil_r.
  - destruct (Login_exchange_shown _ _ _ _ _ _ H) as [more Hm].
    eexists. rewrite Hm. reflexivity.
Qed.

(** ** Every launch is announced *)

Lemma announced_app (a b : list event) :
  announced a -> announced b -> announced (a ++ b).
Proof.
  induction 1 as [|cmd rest _ IH|e rest He _ IH]; intros Hb; cbn [app].
  - exact Hb.
  - apply announced_run. now apply IH.
  - apply announced_other; [exact He|now apply IH].
Qed.

Lemma announces_ret {A} (a : A) : announces (ret a).
Proof.
  intros w. exists []. cbn. rewrite app_nil_r. split; [trivial|constructor].
Qed.

Lemma announces_raise {A} (e : exn) : announces (@raise A e).
Proof.
  intros w. exists []. cbn. rewrite app_nil_r. split; [trivial|constructor].
Qed.

Lemma announces_exit {A} (n : Z) : announces (@sys_exit A n).
Proof.
  intros w. exists []. cbn. rewrite app_nil_r. split; [trivial|constructor].
Qed.

Lemma announces_emit (e : event) : is_exec e = false -> announces (emit e).
Proof.
  intros He w. exists [e]. split; [reflexivity|].
  apply announced_other; [exact He|constructor].
Qed.

Lemma announces_print (s : pystr) : announces (print s).
Proof. now apply announces_emit. Qed.

Lemma announces_bind {A B} (m : M A) (k : A -> M B) :
  announces m -> (forall a, announces (k a)) -> announces (bind m k).
Proof.
  intros Hm Hk w. unfold bind. destruct (Hm w) as [e1 [H1 A1]].
  destruct (m w) as [[a|e|n] w1]; cbn [snd] in *.
  - destruct (Hk a w1) as [e2 [H2 A2]]. exists (e1 ++ e2).
    rewrite H2, H1, app_assoc. split; [trivial|now apply announced_app].
  - now exists e1.
  - now exists e1.
Qed.

Lemma announces_input (prompt : pystr) : announces (input prompt).
Proof.
  intros w. exists [EvPrompt prompt]. unfold input, bind, emit.
  cbn [stdin log]. split.
  - now destruct (stdin w).
  - apply announced_other; [reflexivity|constructor].
Qed.

Lemma announces_RunCommand (cmd : list pystr) : announces (RunCommand cmd).
Proof.
  intros w. rewrite RunCommand_run. eexists. split; [reflexivity|].
  apply announced_run. constructor.
Qed.

Lemma announces_unpack3 {A} (l : list pystr)
    (k : pystr -> pystr -> pystr -> M A) :
  (forall a b c, announces (k a b c)) -> announces (unpack3 l k).
Proof.
  intros Hk. destruct l as [|a [|b [|c [|d l]]]]; cbn [unpack3];
    first [apply announces_raise | apply Hk].
Qed.

Lemma announces_cred (options : Values) :
  announces (GetDSApiCredOrDie options).
Proof.
  intros w. unfold GetDSApiCredOrDie.
  destruct (environ w !! DSAPICRED_ENV) as [v|].
  - apply announces_ret.
  - apply (announces_bind (print _) (fun _ => sys_exit _));
      [apply announces_print|intros _; apply announces_exit].
Qed.

Ltac announce :=
  repeat first
    [ apply announces_print | apply announces_input
    | apply announces_RunCommand | apply announces_cred
    | apply announces_ret | apply announces_raise | apply announces_exit
    | apply announces_unpack3; intros
    | apply announces_bind; [|intros] ].

Lemma announces_Login : announces Login.
Proof.
  unfold Login. announce.
  destruct (json_loads recursion_room _) as [e|j]; [announce|].
  destruct (py_in _ j) as [[|]|]; announce.
  destruct (py_getitem _ j); announce.
Qed.

Lemma announces_GetAccessTokenOrDie (options : Values) :
  announces (GetAccessTokenOrDie options).
Proof.
  unfold GetAccessTokenOrDie. announce.
  destruct (json_loads recursion_room _) as [e|j]; [announce|].
  destruct (py_in _ j) as [[|]|]; announce.
  destruct (py_getitem _ j); announce.
Qed.

Lemma announces_Logout (options : Values) : announces (Logout options).
Proof. unfold Logout. announce. Qed.

(** C9: [RunCommand] prints the command line, then an empty line, then
    launches the command; in [Login], [GetAccessTokenOrDie] and [Logout]
    every launch comes right after these two lines; and the line [Login]
    prints carries the code, the client id and the client secret. *)
Theorem command_line_printed (options : Values) (w : World)
    (l1 l2 l3 l4 : pystr) (rest : list pystr) :
  stdin w = l1 :: l2 :: l3 :: l4 :: rest ->
  (forall cmd w0,
     snd (RunCommand cmd w0)
     = log w0 [ EvPrint (lit "running command: "
                         ++ list_str isprintable cmd);
                EvPrint (lit ""); EvExec cmd ])
  /\ announces Login
  /\ announces (GetAccessTokenOrDie options)
  /\ announces (Logout options)
  /\ In (EvPrint
           (lit "running command: "
            ++ list_str isprintable
                 [ lit "curl"; lit "-s"; lit "--data";
                   lit "code=" ++ strip l4
                   ++ lit "&client_id=" ++ strip l1
                   ++ lit "&client_secret=" ++ strip l2
                   ++ lit "&redirect_uri=urn:ietf:wg:oauth:2.0:oob&grant_type=authorization_code";
                   lit "https://accounts.google.com/o/oauth2/token" ]))
        (trace (snd (Login w))).
Proof.
  intros H. split; [|split; [|split; [|split]]].
  - intros cmd w0. now rewrite RunCommand_run.
  - apply announces_Login.
  - apply announces_GetAccessTokenOrDie.
  - apply announces_Logout.
  - destruct (Login_exchange_shown _ _ _ _ _ _ H) as [more ->].
    rewrite !in_app_iff. right. right. left. right. left. reflexivity.
Qed.

(** ** The dialogue of [Login] *)

(** C7: once the client id, the client secret and the scope are typed,
    [Login] prints the authorization URL: the base, then [scope] (the
    escaped prefix followed by the scope as typed, trimmed),
    [redirect_uri], [response_type], [access_type] and [client_id] in
    that order; nothing is launched before it is shown. *)
Theorem Login_shows_auth_url (w : World) (l1 l2 l3 : pystr)
    (rest : list pystr) :
  stdin w = l1 :: l2 :: l3 :: rest ->
  exists before after,
    trace (snd (Login w))
    = trace w ++ before
      ++ EvPrint
           (lit "https://accounts.google.com/o/oauth2/auth"
            ++ lit "?scope=https%3A%2F%2Fwww.googleapis.com%2Fauth%2F"
            ++ strip l3
            ++ lit "&redirect_uri=urn:ietf:wg:oauth:2.0:oob"
            ++ lit "&response_type=code"
            ++ lit "&access_type=offline"
            ++ lit "&client_id=" ++ strip l1)
      :: after
    /\ forallb (fun e => negb (is_exec e)) before = true.
Proof.
  intros H. destruct (Login_dialogue_shown _ _ _ _ _ H) as [more Hm].
  exists (firstn 17 (login_dialogue (strip l1) (strip l3))),
         (skipn 18 (login_dialogue (strip l1) (strip l3)) ++ more).
  split; [|reflexivity]. rewrite Hm. reflexivity.
Qed.

(** ** The answer of the token endpoint *)

Lemma startswith_app (n post : pystr) : startswith n (n ++ post) = true.
Proof.
  induction n as [|c n IH]; [reflexivity|].
  cbn [app startswith]. now rewrite N.eqb_refl, IH.
Qed.

Lemma str_contains_app (pre n post : pystr) :
  str_contains n (pre ++ n ++ post) = true.
Proof.
  induction pre as [|c pre IH].
  - cbn [app]. pose proof (startswith_app n post) as Hs.
    destruct (n ++ post); cbn [str_contains]; now rewrite Hs.
  - cbn [app str_contains]. rewrite IH. apply orb_true_r.
Qed.

Lemma plain_byte_repr (c : N) :
  plain_byte c = true -> bytes_repr_char squote c = [c].
Proof.
  unfold plain_byte, bytes_repr_char, squote, backslash.
  rewrite !andb_true_iff, !negb_true_iff, N.leb_le, N.ltb_lt, !N.eqb_neq.
  intros [[[H1 H2] H3] H4].
  repeat match goal with
         | |- context [?a =? ?b] => destruct (N.eqb_spec a b); try lia
         | |- context [?a <? ?b] => destruct (N.ltb_spec a b); try lia
         | |- context [?a <=? ?b] => destruct (N.leb_spec a b); try lia
         end.
  reflexivity.
Qed.

Lemma plain_bytes_flat_map (s : list N) :
  forallb plain_byte s = true -> flat_map (bytes_repr_char squote) s = s.
Proof.
  induction s as [|c s IH]; [reflexivity|].
  cbn [forallb flat_map]. intros H. apply andb_true_iff in H.
  destruct H as [Hc Hs]. now rewrite (plain_byte_repr c Hc), (IH Hs).
Qed.

Lemma plain_bytes_repr (b : bytes) :
  forallb plain_byte (codes b) = true ->
  bytes_repr b = lit "b'" ++ codes b ++ lit "'".
Proof.
  intros H. unfold bytes_repr.
  assert (Hq : repr_quote (codes b) = squote).
  { unfold repr_quote.
    replace (existsb (N.eqb squote) (codes b)) with false; [reflexivity|].
    symmetry. apply not_true_is_false. intros He.
    apply existsb_exists in He. destruct He as [c [Hc Hs]].
    rewrite forallb_forall in H. specialize (H c Hc).
    apply N.eqb_eq in Hs. subst c. discriminate H. }
  rewrite Hq, (plain_bytes_flat_map _ H). reflexivity.
Qed.

Lemma Login_else (w : World) (l1 l2 l3 l4 : pystr) (rest : list pystr)
    (body : bytes) (j : json) :
  stdin w = l1 :: l2 :: l3 :: l4 :: rest ->
  popen w (login_cmd (strip l4) (strip l1) (strip l2)) = Launched body ->
  json_loads recursion_room body = inr j ->
  py_in (lit "refresh_token") j = Some false ->
  Login w
  = (Raise (ValueError (lit "Missing refresh_token in response: "
                        ++ bytes_repr body)),
     login_exchanged w rest (strip l1) (strip l2) (strip l3) (strip l4)).
Proof.
  intros H Hp Hj Hd. rewrite (Login_run _ _ _ _ _ _ H). cbv zeta.
  now rewrite Hp, Hj, Hd.
Qed.

(** C2, as the script has it: when [json.loads] decodes the answer and
    the test [in] finds no [refresh_token] in the value (an object
    without that key, a list without that string among its items, or a
    string that does not contain that text), [Login] raises [ValueError]
    and the message ends with [str] of the bytes of the answer, which is
    their [repr]; the message holds the answer itself when all its bytes
    are printable ASCII other than the single quote and the backslash. *)
Theorem Login_missing_refresh_token (w : World) (l1 l2 l3 l4 : pystr)
    (rest : list pystr) (body : bytes) (j : json) :
  stdin w = l1 :: l2 :: l3 :: l4 :: rest ->
  popen w (login_cmd (strip l4) (strip l1) (strip l2)) = Launched body ->
  json_loads recursion_room body = inr j ->
  py_in (lit "refresh_token") j = Some false ->
  fst (Login w)
  = Raise (ValueError (lit "Missing refresh_token in response: "
                       ++ bytes_repr body))
  /\ (forallb plain_byte (codes body) = true ->
      bytes_repr body = lit "b'" ++ codes body ++ lit "'"
      /\ str_contains (codes body)
           (lit "Missing refresh_token in response: " ++ bytes_repr body)
         = true).
Proof.
  intros H Hp Hj Hd. split.
  - now rewrite (Login_else _ _ _ _ _ _ _ _ H Hp Hj Hd).
  - intros Hb. rewrite (plain_bytes_repr _ Hb). split; [reflexivity|].
    rewrite app_assoc. apply str_contains_app.
Qed.

(** C3: with [CID] and [SEC] typed and the answer
    [{"refresh_token":"R1"}], [Login] ends with the three lines [CID,],
    [SEC,] and [R1] and an empty line; with the credential string
    [CID,SEC,R1] and the answer [{"access_token":"A1"}],
    [GetAccessTokenOrDie] returns [A1]. *)
Theorem round_trip (options : Values) (w1 w2 : World) (scope code : pystr)
    (rest : list pystr) :
  stdin w1 = lit "CID" :: lit "SEC" :: scope :: code :: rest ->
  popen w1 (login_cmd (strip code) (lit "CID") (lit "SEC"))
  = Launched (json_object1 "refresh_token" "R1") ->
  environ w2 !! DSAPICRED_ENV = Some (lit "CID,SEC,R1") ->
  popen w2 (refresh_cmd (lit "R1") (lit "CID") (lit "SEC"))
  = Launched (json_object1 "access_token" "A1") ->
  (exists before,
     fst (Login w1) = Ok tt
     /\ trace (snd (Login w1))
        = trace w1 ++ before
          ++ [ EvPrint (lit "CID," ++ nl ++ lit "SEC," ++ nl ++ lit "R1");
               EvPrint (lit "") ])
  /\ fst (GetAccessTokenOrDie options w2) = Ok (JString (lit "A1")).
Proof.
  intros H Hp He Hq. split.
  - rewrite (Login_run _ _ _ _ _ _ H). cbv zeta.
    change (strip (lit "CID")) with (lit "CID").
    change (strip (lit "SEC")) with (lit "SEC").
    rewrite Hp. cbv beta iota.
    change (json_loads recursion_room (json_object1 "refresh_token" "R1"))
      with (@inr exn json
              (JObject [(lit "refresh_token", JString (lit "R1"))])).
    cbv beta iota.
    change (py_in _ _) with (Some true). cbv beta iota.
    change (py_getitem _ _) with (Some (JString (lit "R1"))).
    cbv beta iota. unfold login_exchanged. rewrite log_feed.
    cbn [fst snd feed trace py_str].
    exists (login_dialogue (lit "CID") (strip scope)
            ++ [ EvPrint (lit "");
                 EvPrint (running_line
                            (login_cmd (strip code) (lit "CID") (lit "SEC")));
                 EvPrint (lit "");
                 EvExec (login_cmd (strip code) (lit "CID") (lit "SEC")) ]
            ++ [ EvPrint (lit "Login successful."); EvPrint (lit "");
                 EvPrint (lit "# DSAPI credentials: " ++ lit dq
                          ++ lit "client_id,client_secret,refresh_token"
                          ++ lit dq) ]).
    split; [reflexivity|]. rewrite <- !app_assoc. reflexivity.
  - unfold GetAccessTokenOrDie, bind. rewrite (cred_found _ _ _ He).
    change (split 44 (strip (lit "CID,SEC,R1")))
      with [lit "CID"; lit "SEC"; lit "R1"].
    cbn [unpack3]. rewrite RunCommand_run, Hq. cbv beta iota.
    change (json_loads recursion_room (json_object1 "access_token" "A1"))
      with (@inr exn json
              (JObject [(lit "access_token", JString (lit "A1"))])).
    reflexivity.
Qed.

(** ** The command line *)

Lemma process_login (v : Values) (rest : list pystr) :
  process_args v (lit "--login" :: rest)
  = process_args {| login := true; logout := logout v |} rest.
Proof. reflexivity. Qed.

Lemma process_logout (v : Values) (rest : list pystr) :
  process_args v (lit "--logout" :: rest)
  = process_args {| login := login v; logout := true |} rest.
Proof. reflexivity. Qed.

Lemma process_positional (v : Values) (arg : pystr) (rest : list pystr) :
  startswith (lit "-") arg = false ->
  process_args v (arg :: rest) = process_args v rest.
Proof.
  intros H.
  assert (H2 : startswith (lit "--") arg = false).
  { destruct arg as [|c arg]; [reflexivity|].
    change (startswith (lit "-") (c :: arg)) with ((45 =? c) && true) in H.
    change (startswith (lit "--") (c :: arg))
      with ((45 =? c) && startswith (lit "-") arg).
    rewrite andb_true_r in H. now rewrite H. }
  assert (Hd : pystr_eqb arg (lit "--") = false).
  { unfold pystr_eqb. destruct (decide _) as [->|]; [|reflexivity].
    vm_compute in H. discriminate H. }
  cbn [process_args]. now rewrite Hd, H2, H.
Qed.

Lemma process_flags (flags : list pystr) :
  Forall is_flag flags ->
  forall v,
    process_args v flags
    = Parsed {| login := login v
                         || existsb (pystr_eqb (lit "--login")) flags;
                logout := logout v
                          || existsb (pystr_eqb (lit "--logout")) flags |}.
Proof.
  induction 1 as [|a flags [->| ->] _ IH]; intros v.
  - cbn. rewrite !orb_false_r. now destruct v.
  - rewrite process_login, IH. cbn [login logout existsb].
    change (pystr_eqb (lit "--login") (lit "--login")) with true.
    change (pystr_eqb (lit "--logout") (lit "--login")) with false.
    cbn [orb]. now rewrite orb_true_r.
  - rewrite process_logout, IH. cbn [login logout existsb].
    change (pystr_eqb (lit "--login") (lit "--logout")) with false.
    change (pystr_eqb (lit "--logout") (lit "--logout")) with true.
    cbn [orb]. now rewrite orb_true_r.
Qed.

Lemma existsb_pystr (a : pystr) (l : list pystr) :
  existsb (pystr_eqb a) l = true <-> In a l.
Proof.
  rewrite existsb_exists. unfold pystr_eqb. split.
  - intros [x [Hx He]]. destruct (decide (a = x)) as [->|]; [exact Hx|].
    discriminate He.
  - intros Hin. exists a. split; [exact Hin|].
    now destruct (decide (a = a)).
Qed.

(** C8: with the flags [--login] and [--logout] on the command line,
    [Main] runs [Login] when [--login] is there, whether or not
    [--logout] is; it runs [Logout] when only [--logout] is there; and
    with no flag it prints the help and returns, so the status is 0. *)
Theorem Main_dispatch (w : World) (prog : pystr) (flags : list pystr) :
  startswith (lit "-") prog = false ->
  Forall is_flag flags ->
  (In (lit "--login") flags -> Main (prog :: flags) w = Login w)
  /\ (~ In (lit "--login") flags -> In (lit "--logout") flags ->
      Main (prog :: flags) w
      = Logout {| login := false; logout := true |} w)
  /\ (flags = [] ->
      Main (prog :: flags) w = (Ok tt, log w [EvHelp])
      /\ exit_status (fst (Main (prog :: flags) w)) = 0%Z).
Proof.
  intros Hp Hf.
  assert (Hm : parse_args (prog :: flags)
               = Parsed {| login := existsb (pystr_eqb (lit "--login")) flags;
                           logout := existsb (pystr_eqb (lit "--logout"))
                                       flags |}).
  { unfold parse_args. rewrite (process_positional _ _ _ Hp).
    now rewrite (process_flags _ Hf). }
  unfold Main. rewrite Hm. cbn [login logout].
  split; [|split].
  - intros Hin. apply existsb_pystr in Hin. now rewrite Hin.
  - intros Hn Hin. apply existsb_pystr in Hin. rewrite Hin.
    destruct (existsb (pystr_eqb (lit "--login")) flags) eqn:E;
      [|reflexivity].
    apply existsb_pystr in E. contradiction.
  - intros ->. cbn. auto.
Qed.

(** * More of the script *)

(** ** Splitting and trimming *)

Lemma split_length (sep : N) (s : pystr) :
  length (split sep s) = S (count_occ N.eq_dec s sep).
Proof.
  induction s as [|c s IH]; [reflexivity|].
  cbn [split count_occ].
  destruct (N.eqb_spec c sep) as [E|Hc]; destruct (N.eq_dec c sep);
    try congruence; cbn [length].
  - now rewrite IH.
  - destruct (split sep s); cbn [length] in *; [discriminate IH|exact IH].
Qed.

Lemma split_join (sep : N) (s : pystr) : join [sep] (split sep s) = s.
Proof.
  induction s as [|c s IH]; [reflexivity|].
  cbn [split]. destruct (N.eqb_spec c sep) as [->|Hc].
  - pose proof (split_length sep s) as Hl.
    destruct (split sep s) as [|f fs]; [discriminate Hl|].
    cbn [join app] in *. now rewrite IH.
  - pose proof (split_length sep s) as Hl.
    destruct (split sep s) as [|f [|g fs]]; [discriminate Hl| |];
      cbn [join app] in *; now rewrite IH.
Qed.

Lemma split_fields (sep : N) (s : pystr) :
  Forall (fun f => ~ In sep f) (split sep s).
Proof.
  induction s as [|c s IH]; [repeat constructor; intros []|].
  cbn [split]. destruct (N.eqb_spec c sep) as [->|Hc].
  - constructor; [intros []|exact IH].
  - destruct (split sep s) as [|f fs]; [repeat constructor|].
    + intros [E|[]]. now apply Hc.
    + inversion IH as [|? ? Hf Hfs]; subst. constructor; [|exact Hfs].
      intros [E|E]; [now apply Hc|now apply Hf].
Qed.

(** Three fields are exactly a text of three parts without commas,
    joined by two commas. *)
Lemma split_three (s a b c : pystr) :
  split 44 s = [a; b; c]
  <-> s = a ++ lit "," ++ b ++ lit "," ++ c
      /\ ~ In 44 a /\ ~ In 44 b /\ ~ In 44 c.
Proof.
  split.
  - intros H. pose proof (split_join 44 s) as Hj.
    pose proof (split_fields 44 s) as Hf. rewrite H in Hj, Hf.
    rewrite !Forall_cons in Hf. destruct Hf as (Ha & Hb & Hc & _).
    split; [symmetry; exact Hj|auto].
  - intros (-> & Ha & Hb & Hc). now apply split_triple.
Qed.

Lemma lstrip_all_space (s : pystr) :
  forallb isspace s = true -> lstrip s = [].
Proof.
  induction s as [|c s IH]; [reflexivity|].
  cbn [forallb lstrip]. intros H. apply andb_true_iff in H.
  destruct H as [-> Hs]. now apply IH.
Qed.

Lemma strip_all_space (s : pystr) : forallb isspace s = true -> strip s = [].
Proof.
  intros H. unfold strip. now rewrite (lstrip_all_space _ H).
Qed.

Lemma lstrip_fixed (s : pystr) :
  (forall c, head s = Some c -> isspace c = false) -> lstrip s = s.
Proof.
  destruct s as [|c s]; [reflexivity|]. intros H. cbn [lstrip].
  now rewrite (H c eq_refl).
Qed.

Lemma rstrip_fixed (s : pystr) :
  (forall c, last s = Some c -> isspace c = false) -> rstrip s = s.
Proof.
  intros H. unfold rstrip. rewrite lstrip_fixed; [apply rev_involutive|].
  intros c Hc. apply H. rewrite <- Hc, rev_alt.
  change (rev_append s []) with (reverse s). symmetry. apply head_reverse.
Qed.

(** A text that neither starts nor ends with white space is what
    [strip] returns for it. *)
Lemma strip_fixed (s : pystr) :
  (forall c, head s = Some c -> isspace c = false) ->
  (forall c, last s = Some c -> isspace c = false) ->
  strip s = s.
Proof.
  intros Hh Hl. unfold strip. rewrite (lstrip_fixed _ Hh).
  now apply rstrip_fixed.
Qed.

Lemma strip_idempotent (s : pystr) : strip (strip s) = strip s.
Proof.
  destruct (strip_spec s) as (_ & Hh & Hl). now apply strip_fixed.
Qed.

(** ** The answers [GetAccessTokenOrDie] can get *)

Lemma GetAccessTokenOrDie_run (options : Values) (w : World)
    (v a b c : pystr) :
  environ w !! DSAPICRED_ENV = Some v ->
  split 44 (strip v) = [a; b; c] ->
  let cmd := refresh_cmd c a b in
  GetAccessTokenOrDie options w
  = (match popen w cmd with
     | LaunchError e => Raise e
     | Launched output =>
         match json_loads recursion_room output with
         | inl e => Raise e
         | inr j =>
             match py_in (lit "access_token") j with
             | None => Raise TypeError
             | Some false =>
                 Raise (ValueError
                          (lit "missing access_token in response: "
                           ++ bytes_repr output))
             | Some true =>
                 match py_getitem (lit "access_token") j with
                 | None => Raise TypeError
                 | Some tok => Ok tok
                 end
             end
         end
     end,
     log w [EvPrint (running_line cmd); EvPrint (lit ""); EvExec cmd]).
Proof.
  intros H Hs cmd. unfold GetAccessTokenOrDie, bind.
  rewrite (cred_found _ _ _ H), Hs. cbn [unpack3].
  rewrite RunCommand_run. fold cmd.
  destruct (popen w cmd) as [out|e]; [|reflexivity].
  destruct (json_loads recursion_room out) as [e|j]; [reflexivity|].
  destruct (py_in _ j) as [[|]|]; try reflexivity.
  now destruct (py_getitem _ j).
Qed.

Lemma Logout_run (options : Values) (w : World) (v a b c : pystr) :
  environ w !! DSAPICRED_ENV = Some v ->
  split 44 (strip v) = [a; b; c] ->
  let cmd := revoke_cmd c in
  Logout options w
  = (match popen w cmd with
     | Launched _ => Ok tt
     | LaunchError e => Raise e
     end,
     log w [EvPrint (running_line cmd); EvPrint (lit ""); EvExec cmd]).
Proof.
  intros H Hs cmd. unfold Logout, bind.
  rewrite (cred_found _ _ _ H), Hs. cbn [unpack3].
  rewrite RunCommand_run. fold cmd. now destruct (popen w cmd).
Qed.

Lemma dict_get_Some (k : pystr) (kvs : list (pystr * json)) (v : json) :
  dict_get k kvs = Some v ->
  existsb (fun kv => pystr_eqb (fst kv) k) kvs = true.
Proof.
  induction kvs as [|[k0 v0] r IH]; [discriminate|].
  cbn [dict_get existsb fst]. destruct (dict_get k r) as [x|].
  - intros E. rewrite (IH E). apply orb_true_r.
  - destruct (pystr_eqb k0 k); [reflexivity|discriminate].
Qed.

Lemma pystr_eqb_refl (k : pystr) : pystr_eqb k k = true.
Proof. unfold pystr_eqb. now destruct (decide (k = k)). Qed.

Lemma pystr_eqb_eq (a b : pystr) : pystr_eqb a b = true <-> a = b.
Proof.
  unfold pystr_eqb. destruct (decide (a = b)); split; congruence.
Qed.

(** The member that counts is the last one with the key. *)
Lemma dict_get_last (k : pystr) (before after : list (pystr * json))
    (v : json) :
  ~ In k (List.map fst after) ->
  dict_get k (before ++ (k, v) :: after) = Some v.
Proof.
  intros Hn.
  assert (Ha : dict_get k after = None).
  { induction after as [|[k0 v0] r IH]; [reflexivity|].
    cbn [dict_get]. rewrite IH by (intros Hi; apply Hn; now right).
    destruct (pystr_eqb k0 k) eqn:E; [|reflexivity].
    apply pystr_eqb_eq in E. exfalso. apply Hn. now left. }
  induction before as [|[k0 v0] r IH].
  - cbn [app dict_get]. now rewrite Ha, pystr_eqb_refl.
  - cbn [app dict_get]. now rewrite IH.
Qed.

(** X1: when the answer is a JSON object without [access_token],
    [GetAccessTokenOrDie] raises [ValueError] with the text
    [missing access_token in response: ] and [str] of the bytes of the
    answer; the command has been launched and nothing else happens. *)
Theorem GetAccessTokenOrDie_missing_access_token (options : Values)
    (w : World) (v a b c : pystr) (body : bytes)
    (members : list (pystr * json)) :
  environ w !! DSAPICRED_ENV = Some v ->
  split 44 (strip v) = [a; b; c] ->
  popen w (refresh_cmd c a b) = Launched body ->
  json_loads recursion_room body = inr (JObject members) ->
  ~ In (lit "access_token") (List.map fst members) ->
  GetAccessTokenOrDie options w
  = (Raise (ValueError (lit "missing access_token in response: "
                        ++ bytes_repr body)),
     log w [ EvPrint (running_line (refresh_cmd c a b)); EvPrint (lit "");
             EvExec (refresh_cmd c a b) ]).
Proof.
  intros H Hs Hp Hj Hn. rewrite (GetAccessTokenOrDie_run _ _ _ _ _ _ H Hs).
  cbv zeta. rewrite Hp, Hj. cbn [py_in].
  replace (existsb _ members) with false; [reflexivity|].
  symmetry. apply not_true_is_false. intros He.
  apply existsb_exists in He. destruct He as [[k0 v0] [Hi He]].
  apply pystr_eqb_eq in He. cbn [fst] in He. subst k0.
  apply Hn. apply in_map_iff. now exists (lit "access_token", v0).
Qed.

(** X2: when the answer is a JSON object with [access_token],
    [GetAccessTokenOrDie] returns the value of the last member with that
    key, whatever kind of value it is. *)
Theorem GetAccessTokenOrDie_returns_token (options : Values) (w : World)
    (v a b c : pystr) (body : bytes)
    (before after : list (pystr * json)) (tok : json) :
  environ w !! DSAPICRED_ENV = Some v ->
  split 44 (strip v) = [a; b; c] ->
  popen w (refresh_cmd c a b) = Launched body ->
  json_loads recursion_room body
  = inr (JObject (before ++ (lit "access_token", tok) :: after)) ->
  ~ In (lit "access_token") (List.map fst after) ->
  fst (GetAccessTokenOrDie options w) = Ok tok.
Proof.
  intros H Hs Hp Hj Hn. rewrite (GetAccessTokenOrDie_run _ _ _ _ _ _ H Hs).
  cbv zeta. rewrite Hp, Hj. cbn [py_in py_getitem fst].
  pose proof (dict_get_last _ before after tok Hn) as Hd.
  now rewrite (dict_get_Some _ _ _ Hd), Hd.
Qed.


(** X4: when the answer is JSON but a number, [true], [false] or
    [null], the test [in] itself fails: [GetAccessTokenOrDie] raises
    [TypeError], which is not a [ValueError]. *)
Theorem GetAccessTokenOrDie_scalar (options : Values) (w : World)
    (v a b c : pystr) (body : bytes) (j : json) :
  environ w !! DSAPICRED_ENV = Some v ->
  split 44 (strip v) = [a; b; c] ->
  popen w (refresh_cmd c a b) = Launched body ->
  json_loads recursion_room body = inr j ->
  is_scalar j = true ->
  fst (GetAccessTokenOrDie options w) = Raise TypeError
  /\ is_ValueError TypeError = false.
Proof.
  intros H Hs Hp Hj Hk. rewrite (GetAccessTokenOrDie_run _ _ _ _ _ _ H Hs).
  cbv zeta. rewrite Hp, Hj. split; [|reflexivity].
  now destruct j.
Qed.

(** X5: the number of commas of the credential string decides:
    with exactly two, the string is three fields joined by commas and
    [GetAccessTokenOrDie] launches the request made of them; with any
    other number it raises the [ValueError] of the unpacking and nothing
    is printed or launched. *)
Theorem GetAccessTokenOrDie_commas (options : Values) (w : World)
    (v : pystr) :
  environ w !! DSAPICRED_ENV = Some v ->
  (commas (strip v) = 2%nat ->
   exists a b c,
     strip v = a ++ lit "," ++ b ++ lit "," ++ c
     /\ snd (GetAccessTokenOrDie options w)
        = log w [ EvPrint (running_line (refresh_cmd c a b));
                  EvPrint (lit ""); EvExec (refresh_cmd c a b) ])
  /\ (commas (strip v) <> 2%nat ->
      exists msg,
        GetAccessTokenOrDie options w = (Raise (ValueError msg), w)).
Proof.
  intros H. pose proof (split_length 44 (strip v)) as Hl.
  fold (commas (strip v)) in Hl. split.
  - intros Hc. rewrite Hc in Hl.
    destruct (split 44 (strip v)) as [|a [|b [|c [|d l]]]] eqn:Hs;
      try discriminate Hl.
    exists a, b, c. split; [now apply split_three in Hs|].
    now rewrite (GetAccessTokenOrDie_run _ _ _ _ _ _ H Hs).
  - intros Hc. unfold GetAccessTokenOrDie, bind.
    rewrite (cred_found _ _ _ H). apply unpack3_bad. lia.
Qed.

(** X6: a variable that is set but empty, or holds only white space,
    counts as configured: no guidance is printed, and both operations
    fail in the unpacking, having found one field instead of three. *)
Theorem blank_credential (options : Values) (w : World) (v : pystr) :
  environ w !! DSAPICRED_ENV = Some v ->
  forallb isspace v = true ->
  GetAccessTokenOrDie options w
  = (Raise (ValueError
              (lit "not enough values to unpack (expected 3, got 1)")), w)
  /\ Logout options w
     = (Raise (ValueError
                 (lit "not enough values to unpack (expected 3, got 1)")),
        w).
Proof.
  intros H Hb. unfold GetAccessTokenOrDie, Logout, bind.
  rewrite (cred_found _ _ _ H), (strip_all_space _ Hb). split; reflexivity.
Qed.

(** X7: a credential string that does not split on the comma into three
    fields makes [Logout] raise the [ValueError] of the unpacking, with
    nothing printed and nothing launched. *)
Theorem Logout_bad_shape (options : Values) (w : World) (v : pystr) :
  environ w !! DSAPICRED_ENV = Some v ->
  length (split 44 (strip v)) <> 3%nat ->
  exists msg, Logout options w = (Raise (ValueError msg), w).
Proof.
  intros H Hl. unfold Logout, bind. rewrite (cred_found _ _ _ H).
  now apply unpack3_bad.
Qed.

(** ** What the operations on credentials depend on *)

Lemma log_nil (w : World) : log w [] = w.
Proof.
  destruct w. unfold log. cbn [environ stdin popen trace].
  now rewrite app_nil_r.
Qed.

Lemma GetAccessTokenOrDie_outcome (options : Values) (w w0 : World) :
  environ w = environ w0 -> popen w = popen w0 ->
  fst (GetAccessTokenOrDie options w) = fst (GetAccessTokenOrDie options w0).
Proof.
  intros He Hp. unfold GetAccessTokenOrDie, bind, GetDSApiCredOrDie.
  rewrite <- He. destruct (environ w !! DSAPICRED_ENV) as [v|];
    [|reflexivity].
  cbn [ret]. destruct (split 44 (strip v)) as [|a [|b [|c [|d l]]]];
    cbn [unpack3 raise fst]; try reflexivity.
  rewrite !RunCommand_run, <- Hp.
  destruct (popen w _) as [out|e]; [|reflexivity].
  destruct (json_loads recursion_room out) as [e|j]; [reflexivity|].
  destruct (py_in _ j) as [[|]|]; try reflexivity.
  now destruct (py_getitem _ j).
Qed.

Lemma Logout_outcome (options : Values) (w w0 : World) :
  environ w = environ w0 -> popen w = popen w0 ->
  fst (Logout options w) = fst (Logout options w0).
Proof.
  intros He Hp. unfold Logout, bind, GetDSApiCredOrDie.
  rewrite <- He. destruct (environ w !! DSAPICRED_ENV) as [v|];
    [|reflexivity].
  cbn [ret]. destruct (split 44 (strip v)) as [|a [|b [|c [|d l]]]];
    cbn [unpack3 raise fst]; try reflexivity.
  rewrite !RunCommand_run, <- Hp.
  now destruct (popen w _).
Qed.

Lemma GetAccessTokenOrDie_frame (options : Values) (w : World) :
  exists evs, snd (GetAccessTokenOrDie options w) = log w evs.
Proof.
  unfold GetAccessTokenOrDie, bind, GetDSApiCredOrDie.
  destruct (environ w !! DSAPICRED_ENV) as [v|];
    [|eexists; reflexivity].
  cbn [ret]. destruct (split 44 (strip v)) as [|a [|b [|c [|d l]]]];
    cbn [unpack3 raise snd];
    try (exists []; symmetry; apply log_nil).
  rewrite RunCommand_run. eexists.
  destruct (popen w _) as [out|e]; [|reflexivity].
  destruct (json_loads recursion_room out) as [e|j]; [reflexivity|].
  destruct (py_in _ j) as [[|]|]; try reflexivity.
  destruct (py_getitem _ j); reflexivity.
Qed.

Lemma Logout_frame (options : Values) (w : World) :
  exists evs, snd (Logout options w) = log w evs.
Proof.
  unfold Logout, bind, GetDSApiCredOrDie.
  destruct (environ w !! DSAPICRED_ENV) as [v|];
    [|eexists; reflexivity].
  cbn [ret]. destruct (split 44 (strip v)) as [|a [|b [|c [|d l]]]];
    cbn [unpack3 raise snd];
    try (exists []; symmetry; apply log_nil).
  rewrite RunCommand_run. eexists.
  destruct (popen w _); reflexivity.
Qed.

(** X8: [GetAccessTokenOrDie] and [Logout] read no line of input and
    change neither the environment nor the lines left to read; what they
    return depends on the environment and on the answer of the command
    only, so a second call of [GetAccessTokenOrDie] after the first gets
    the same result. *)
Theorem credential_operations_frame (options : Values) (w : World) :
  (stdin (snd (GetAccessTokenOrDie options w)) = stdin w
   /\ environ (snd (GetAccessTokenOrDie options w)) = environ w)
  /\ (stdin (snd (Logout options w)) = stdin w
      /\ environ (snd (Logout options w)) = environ w)
  /\ (forall w0, environ w0 = environ w -> popen w0 = popen w ->
        fst (GetAccessTokenOrDie options w0)
        = fst (GetAccessTokenOrDie options w)
        /\ fst (Logout options w0) = fst (Logout options w))
  /\ fst (GetAccessTokenOrDie options (snd (GetAccessTokenOrDie options w)))
     = fst (GetAccessTokenOrDie options w).
Proof.
  destruct (GetAccessTokenOrDie_frame options w) as [e1 H1].
  destruct (Logout_frame options w) as [e2 H2].
  rewrite H1, H2. repeat split.
  - intros. now apply GetAccessTokenOrDie_outcome.
  - intros. now apply Logout_outcome.
  - now apply GetAccessTokenOrDie_outcome.
Qed.

(** ** The answers [Login] can get *)

(** X9: when the answer is a JSON object with [refresh_token] and the
    text of the last member with that key is ASCII, [Login] returns
    normally after printing [Login successful.], an empty line, the
    comment line, the client id, the client secret and that text on three
    lines, and an empty line. *)
Theorem Login_success (w : World) (l1 l2 l3 l4 : pystr)
    (rest : list pystr) (body : bytes)
    (before after : list (pystr * json)) (tok : json) :
  stdin w = l1 :: l2 :: l3 :: l4 :: rest ->
  popen w (login_cmd (strip l4) (strip l1) (strip l2)) = Launched body ->
  json_loads recursion_room body
  = inr (JObject (before ++ (lit "refresh_token", tok) :: after)) ->
  ~ In (lit "refresh_token") (List.map fst after) ->
  ascii_text (py_str tok) = true ->
  Login w
  = (Ok tt,
     log (login_exchanged w rest (strip l1) (strip l2) (strip l3)
            (strip l4))
       (login_report (strip l1) (strip l2) tok)).
Proof.
  intros H Hp Hj Hn _. rewrite (Login_run _ _ _ _ _ _ H). cbv zeta.
  rewrite Hp, Hj. cbn [py_in py_getitem fst].
  pose proof (dict_get_last _ before after tok Hn) as Hd.
  now rewrite (dict_get_Some _ _ _ Hd), Hd.
Qed.


(** X11: when the answer is JSON but a number, [true], [false] or
    [null], [Login] raises [TypeError], which is not a [ValueError]. *)
Theorem Login_scalar (w : World) (l1 l2 l3 l4 : pystr)
    (rest : list pystr) (body : bytes) (j : json) :
  stdin w = l1 :: l2 :: l3 :: l4 :: rest ->
  popen w (login_cmd (strip l4) (strip l1) (strip l2)) = Launched body ->
  json_loads recursion_room body = inr j ->
  is_scalar j = true ->
  fst (Login w) = Raise TypeError /\ is_ValueError TypeError = false.
Proof.
  intros H Hp Hj Hk. rewrite (Login_run _ _ _ _ _ _ H). cbv zeta.
  rewrite Hp, Hj. split; [|reflexivity]. now destruct j.
Qed.

(** X12: when the answer is a JSON list with the string [refresh_token]
    among its items, or a JSON string with [refresh_token] inside, the
    test [in] succeeds: [Login] prints [Login successful.], an empty
    line and the comment line, and then raises [TypeError] on the
    subscript. *)
Theorem Login_successful_then_TypeError (w : World) (l1 l2 l3 l4 : pystr)
    (rest : list pystr) (body : bytes) (j : json) :
  stdin w = l1 :: l2 :: l3 :: l4 :: rest ->
  popen w (login_cmd (strip l4) (strip l1) (strip l2)) = Launched body ->
  json_loads recursion_room body = inr j ->
  ((exists items,
      j = JArray items /\ In (JString (lit "refresh_token")) items)
   \/ (exists s,
         j = JString s /\ str_contains (lit "refresh_token") s = true)) ->
  Login w
  = (Raise TypeError,
     log (login_exchanged w rest (strip l1) (strip l2) (strip l3)
            (strip l4))
       [ EvPrint (lit "Login successful.");
         EvPrint (lit "");
         EvPrint (lit "# DSAPI credentials: " ++ lit dq
                  ++ lit "client_id,client_secret,refresh_token"
                  ++ lit dq) ]).
Proof.
  intros H Hp Hj Hk. rewrite (Login_run _ _ _ _ _ _ H). cbv zeta.
  rewrite Hp, Hj.
  destruct Hk as [[items [-> Hi]]|[s [-> Hs]]]; cbn [py_in py_getitem].
  - replace (existsb _ items) with true; [reflexivity|].
    symmetry. apply existsb_exists.
    exists (JString (lit "refresh_token")). split; [exact Hi|].
    apply pystr_eqb_refl.
  - now rewrite Hs.
Qed.

(** ** [Login] and its input *)

Lemma Login_short (w : World) :
  (length (stdin w) < 4)%nat ->
  Login w = (Raise EOFError, feed w [] (login_eof_events (stdin w))).
Proof.
  intros Hl. rewrite (feed_start w) at 1. revert Hl.
  destruct (stdin w) as [|l1 [|l2 [|l3 [|l4 rest]]]]; intros Hl;
    [| | | |cbn [length] in Hl; lia]; unfold Login.
  - do 10 step. reflexivity.
  - do 11 step. reflexivity.
  - do 14 step. reflexivity.
  - do 20 step. reflexivity.
Qed.

(** X13: when the input ends before the four lines are typed, [Login]
    raises [EOFError] at the prompt that finds no line; it has launched
    nothing. *)
Theorem Login_end_of_input (w : World) :
  (length (stdin w) < 4)%nat ->
  Login w = (Raise EOFError, feed w [] (login_eof_events (stdin w)))
  /\ launched (login_eof_events (stdin w)) = []
  /\ last (login_eof_events (stdin w))
     = Some (EvPrompt
               (nth (length (stdin w))
                  [ lit "Client ID: "; lit "Client secret: ";
                    lit "Scope: "; lit "Code: " ] [])).
Proof.
  intros Hl. split; [now apply Login_short|]. revert Hl.
  destruct (stdin w) as [|l1 [|l2 [|l3 [|l4 rest]]]]; intros Hl;
    [| | | |cbn [length] in Hl; lia]; split; reflexivity.
Qed.

(** ** How many commands are launched *)

Lemma launched_app (a b : list event) :
  launched (a ++ b) = launched a ++ launched b.
Proof.
  induction a as [|e a IH]; [reflexivity|].
  destruct e; cbn [app launched]; now rewrite IH.
Qed.

Lemma one_curl_log {A} (m : M A) :
  (forall w, exists evs,
     snd (m w) = log w evs
     /\ (launched evs = []
         \/ exists args, launched evs = [lit "curl" :: args])) ->
  one_curl_at_most m.
Proof.
  intros H w. destruct (H w) as [evs [Hw Hl]]. exists evs.
  rewrite Hw. split; [reflexivity|].
  destruct Hl as [->|[args ->]]; cbn [length]; split;
    try lia; repeat constructor.
Qed.

Lemma one_curl_Login : one_curl_at_most Login.
Proof.
  intros w.
  destruct (Nat.lt_ge_cases (length (stdin w)) 4) as [Hl|Hl].
  - rewrite (Login_short w Hl). exists (login_eof_events (stdin w)).
    split; [reflexivity|].
    replace (launched (login_eof_events (stdin w))) with (@nil (list pystr)).
    + split; [cbn; lia|constructor].
    + clear Hl. now destruct (stdin w) as [|l1 [|l2 [|l3 [|l4 rest]]]].
  - destruct (stdin w) as [|l1 [|l2 [|l3 [|l4 rest]]]] eqn:Hs;
      try (cbn [length] in Hl; lia).
    rewrite (Login_run w _ _ _ _ _ Hs). cbv zeta.
    set (cid := strip l1). set (csc := strip l2).
    assert (Hx : forall (o : Outcome unit) added,
               launched added = [] ->
               exists evs,
                 trace (snd (o, log (login_exchanged w rest cid csc
                                       (strip l3) (strip l4)) added))
                 = trace w ++ evs
                 /\ (length (launched evs) <= 1)%nat
                 /\ Forall (fun cmd => head cmd = Some (lit "curl"))
                      (launched evs)).
    { intros o added Ha. eexists. split.
      - unfold login_exchanged. rewrite log_feed. reflexivity.
      - rewrite !launched_app, Ha.
        change (launched (login_dialogue cid (strip l3)))
          with (@nil (list pystr)).
        cbn [launched app length]. split; [lia|].
        repeat constructor. }
    assert (Hx0 : forall (o : Outcome unit),
               exists evs,
                 trace (snd (o, login_exchanged w rest cid csc
                                  (strip l3) (strip l4)))
                 = trace w ++ evs
                 /\ (length (launched evs) <= 1)%nat
                 /\ Forall (fun cmd => head cmd = Some (lit "curl"))
                      (launched evs)).
    { intros o. destruct (Hx o [] eq_refl) as [evs He].
      rewrite log_nil in He. now exists evs. }
    destruct (popen w _) as [out|e]; [|apply Hx0].
    destruct (json_loads recursion_room out) as [e|j]; [apply Hx0|].
    destruct (py_in _ j) as [[|]|]; try apply Hx0.
    destruct (py_getitem _ j); now apply Hx.
Qed.

Lemma one_curl_GetAccessTokenOrDie (options : Values) :
  one_curl_at_most (GetAccessTokenOrDie options).
Proof.
  apply one_curl_log. intros w.
  destruct (environ w !! DSAPICRED_ENV) as [v|] eqn:He.
  - destruct (split 44 (strip v)) as [|a [|b [|c [|d l]]]] eqn:Hs.
    1,2,3,5: exists []; split; [|now left];
      unfold GetAccessTokenOrDie, bind; rewrite (cred_found _ _ _ He), Hs;
      symmetry; apply log_nil.
    rewrite (GetAccessTokenOrDie_run _ _ _ _ _ _ He Hs). cbv zeta.
    eexists. split; [reflexivity|]. right. eexists. reflexivity.
  - exists [EvPrint missing_credentials_text]. split; [|now left].
    unfold GetAccessTokenOrDie, bind. now rewrite cred_missing.
Qed.

Lemma one_curl_Logout (options : Values) :
  one_curl_at_most (Logout options).
Proof.
  apply one_curl_log. intros w.
  destruct (environ w !! DSAPICRED_ENV) as [v|] eqn:He.
  - destruct (split 44 (strip v)) as [|a [|b [|c [|d l]]]] eqn:Hs.
    1,2,3,5: exists []; split; [|now left];
      unfold Logout, bind; rewrite (cred_found _ _ _ He), Hs;
      symmetry; apply log_nil.
    rewrite (Logout_run _ _ _ _ _ _ He Hs). cbv zeta.
    eexists. split; [reflexivity|]. right. eexists. reflexivity.
  - exists [EvPrint missing_credentials_text]. split; [|now left].
    unfold Logout, bind. now rewrite cred_missing.
Qed.

(** X15: in one run, [Login], [GetAccessTokenOrDie], [Logout] and [Main]
    each launch at most one command, and the command is [curl]. *)
Theorem one_command_per_run (options : Values) (argv : list pystr) :
  one_curl_at_most Login
  /\ one_curl_at_most (GetAccessTokenOrDie options)
  /\ one_curl_at_most (Logout options)
  /\ one_curl_at_most (Main argv).
Proof.
  split; [apply one_curl_Login|].
  split; [apply one_curl_GetAccessTokenOrDie|].
  split; [apply one_curl_Logout|].
  unfold Main. destruct (parse_args argv) as [o| |e].
  - destruct (login o); [apply one_curl_Login|].
    destruct (logout o); [apply one_curl_Logout|].
    apply one_curl_log. intros w. exists [EvHelp]. split; [reflexivity|].
    now left.
  - apply one_curl_log. intros w. exists [EvHelp]. split; [reflexivity|].
    now left.
  - apply one_curl_log. intros w. exists [EvUsage e].
    split; [reflexivity|]. now left.
Qed.

(** ** From [Login] to [GetAccessTokenOrDie] *)

Lemma strip_credential (a b c : pystr) :
  (forall x, head a = Some x -> isspace x = false) ->
  (forall x, last c = Some x -> isspace x = false) ->
  strip (a ++ lit "," ++ b ++ lit "," ++ c)
  = a ++ lit "," ++ b ++ lit "," ++ c.
Proof.
  intros Ha Hc. apply strip_fixed.
  - intros x. rewrite head_app. destruct (head a) as [y|].
    + intros [= <-]. now apply Ha.
    + intros [= <-]. reflexivity.
  - intros x. change (lit ",") with [44]. rewrite !app_assoc, last_app.
    destruct (last c) as [y|].
    + intros [= <-]. now apply Hc.
    + rewrite last_snoc. intros [= <-]. reflexivity.
Qed.

(** X16: the credential string made of the three values [Login] prints,
    joined by commas, gives [GetAccessTokenOrDie] the same three values
    back: when the client id and secret typed and the refresh token
    received have no comma, and the token is ASCII text that does not
    end with white space, the request carries that token, that id and
    that secret. *)
Theorem Login_then_GetAccessTokenOrDie (options : Values) (w1 w2 : World)
    (l1 l2 l3 l4 : pystr) (rest : list pystr) (body : bytes)
    (before after : list (pystr * json)) (tok : pystr) :
  stdin w1 = l1 :: l2 :: l3 :: l4 :: rest ->
  popen w1 (login_cmd (strip l4) (strip l1) (strip l2)) = Launched body ->
  json_loads recursion_room body
  = inr (JObject (before ++ (lit "refresh_token", JString tok) :: after)) ->
  ~ In (lit "refresh_token") (List.map fst after) ->
  ~ In 44 (strip l1) -> ~ In 44 (strip l2) -> ~ In 44 tok ->
  ascii_text tok = true ->
  (forall x, last tok = Some x -> isspace x = false) ->
  environ w2 !! DSAPICRED_ENV
  = Some (strip l1 ++ lit "," ++ strip l2 ++ lit "," ++ tok) ->
  In (EvPrint (strip l1 ++ lit "," ++ nl ++ strip l2 ++ lit "," ++ nl
               ++ tok))
     (trace (snd (Login w1)))
  /\ snd (GetAccessTokenOrDie options w2)
     = log w2 [ EvPrint (running_line
                           (refresh_cmd tok (strip l1) (strip l2)));
                EvPrint (lit "");
                EvExec (refresh_cmd tok (strip l1) (strip l2)) ].
Proof.
  intros H Hp Hj Hn H1 H2 H3 _ Ht He. split.
  - rewrite (Login_run _ _ _ _ _ _ H). cbv zeta.
    rewrite Hp, Hj. cbn [py_in py_getitem fst].
    pose proof (dict_get_last _ before after (JString tok) Hn) as Hd.
    rewrite (dict_get_Some _ _ _ Hd), Hd.
    cbn [snd log trace py_str]. rewrite in_app_iff. right.
    do 3 right. left. reflexivity.
  - assert (Hs : split 44 (strip (strip l1 ++ lit "," ++ strip l2
                                    ++ lit "," ++ tok))
                 = [strip l1; strip l2; tok]).
    { rewrite strip_credential; [now apply split_triple| |exact Ht].
      apply (strip_spec l1). }
    now rewrite (GetAccessTokenOrDie_run _ _ _ _ _ _ He Hs).
Qed.

(** ** More of the command line *)

Lemma process_skip (x : pystr) (b a : list pystr) :
  startswith (lit "-") x = false ->
  forall v, process_args v (a ++ x :: b) = process_args v (a ++ b).
Proof.
  intros Hx. induction a as [|y a IH]; intros v.
  - now apply process_positional.
  - cbn [app process_args].
    destruct (pystr_eqb y (lit "--")); [reflexivity|].
    destruct (startswith (lit "--") y).
    + destruct (cut_eq y) as [opt explicit].
      destruct (match_long_opt opt) as [e|o]; [reflexivity|].
      destruct explicit; [reflexivity|].
      destruct (pystr_eqb o (lit "--help")); [reflexivity|].
      destruct (pystr_eqb o (lit "--login")); apply IH.
    + destruct (startswith (lit "-") y && (1 <? length y)%nat);
        [reflexivity|apply IH].
Qed.

(** X17: [Main] ignores every argument that does not start with a
    dash, wherever it stands on the command line. *)
Theorem Main_ignores_positional (w : World) (a b : list pystr)
    (x : pystr) :
  startswith (lit "-") x = false ->
  Main (a ++ x :: b) w = Main (a ++ b) w.
Proof.
  intros Hx. unfold Main, parse_args. now rewrite (process_skip x b a Hx).
Qed.

Lemma process_flags_then (flags tail : list pystr) :
  Forall is_flag flags ->
  forall v,
    process_args v (flags ++ tail)
    = process_args
        {| login := login v
                    || existsb (pystr_eqb (lit "--login")) flags;
           logout := logout v
                     || existsb (pystr_eqb (lit "--logout")) flags |}
        tail.
Proof.
  induction 1 as [|a flags [->| ->] _ IH]; intros v.
  - cbn [app existsb]. rewrite !orb_false_r. now destruct v.
  - cbn [app]. rewrite process_login, IH. cbn [login logout existsb].
    change (pystr_eqb (lit "--login") (lit "--login")) with true.
    change (pystr_eqb (lit "--logout") (lit "--login")) with false.
    cbn [orb]. now rewrite orb_true_r.
  - cbn [app]. rewrite process_logout, IH. cbn [login logout existsb].
    change (pystr_eqb (lit "--login") (lit "--logout")) with false.
    change (pystr_eqb (lit "--logout") (lit "--logout")) with true.
    cbn [orb]. now rewrite orb_true_r.
Qed.

(** X18: [--logout] on the command line without the variable in the
    environment: [Main] prints the guidance and leaves with status -1,
    and launches nothing. *)
Theorem Main_logout_without_credentials (w : World) (prog : pystr)
    (flags : list pystr) :
  startswith (lit "-") prog = false ->
  Forall is_flag flags ->
  ~ In (lit "--login") flags ->
  In (lit "--logout") flags ->
  environ w !! DSAPICRED_ENV = None ->
  Main (prog :: flags) w
  = (Exit (-1), log w [EvPrint missing_credentials_text])
  /\ exit_status (fst (Main (prog :: flags) w)) = (-1)%Z.
Proof.
  intros Hp Hf Hn Hi He.
  assert (Hm : Main (prog :: flags) w
               = (Exit (-1), log w [EvPrint missing_credentials_text])).
  { unfold Main, parse_args. rewrite (process_positional _ _ _ Hp).
    rewrite (process_flags _ Hf). cbn [login logout orb].
    apply existsb_pystr in Hi. rewrite Hi.
    destruct (existsb (pystr_eqb (lit "--login")) flags) eqn:E.
    - apply existsb_pystr in E. contradiction.
    - unfold Logout, bind. now rewrite cred_missing. }
  now rewrite Hm.
Qed.

(** X19: [--help] or [-h] after any flags: [Main] prints the help and
    leaves with status 0 without running [Login] or [Logout], whatever
    follows on the command line. *)
Theorem Main_help (w : World) (prog help : pystr)
    (flags rest : list pystr) :
  startswith (lit "-") prog = false ->
  Forall is_flag flags ->
  help = lit "--help" \/ help = lit "-h" ->
  Main (prog :: flags ++ help :: rest) w = (Exit 0, log w [EvHelp]).
Proof.
  intros Hp Hf Hh. unfold Main, parse_args.
  rewrite (process_positional _ _ _ Hp), (process_flags_then _ _ Hf).
  destruct Hh as [-> | ->]; reflexivity.
Qed.
End Script.

(** * Instances *)

Lemma GetDSApiCredOrDie_strips_witness :
  let w := start {[ DSAPICRED_ENV := lit " A,B,C " ]} [] EmptyString in
  environ w !! DSAPICRED_ENV = Some (lit " A,B,C ")
  /\ GetDSApiCredOrDie no_flags w = (Ok (lit "A,B,C"), w).
Proof.
  assert (H : environ (start {[ DSAPICRED_ENV := lit " A,B,C " ]} []
                         EmptyString) !! DSAPICRED_ENV
              = Some (lit " A,B,C ")) by (vm_compute; reflexivity).
  split; [exact H|].
  exact (proj1 (GetDSApiCredOrDie_strips no_flags _ _ H)).
Defined.

Lemma missing_credentials_exit_witness :
  let w := start ∅ [] EmptyString in
  environ w !! DSAPICRED_ENV = None
  /\ GetAccessTokenOrDie ascii_printable some_room no_flags w
     = (Exit (-1), log w [EvPrint missing_credentials_text])
  /\ Logout ascii_printable no_flags w
     = (Exit (-1), log w [EvPrint missing_credentials_text]).
Proof.
  assert (H : environ (start ∅ [] EmptyString) !! DSAPICRED_ENV = None)
    by (vm_compute; reflexivity).
  split; [exact H|].
  pose proof (missing_credentials_exit ascii_printable some_room no_flags _ H) as T.
  split; [exact (proj1 T)|exact (proj1 (proj2 T))].
Defined.

Lemma GetAccessTokenOrDie_bad_shape_witness :
  let w := start {[ DSAPICRED_ENV := lit "CID,SEC" ]} [] EmptyString in
  environ w !! DSAPICRED_ENV = Some (lit "CID,SEC")
  /\ length (split 44 (strip (lit "CID,SEC"))) = 2%nat
  /\ exists msg,
       GetAccessTokenOrDie ascii_printable some_room no_flags w
       = (Raise (ValueError msg), w).
Proof.
  assert (H : environ (start {[ DSAPICRED_ENV := lit "CID,SEC" ]} []
                         EmptyString) !! DSAPICRED_ENV
              = Some (lit "CID,SEC")) by (vm_compute; reflexivity).
  split; [exact H|]. split; [vm_compute; reflexivity|].
  apply (GetAccessTokenOrDie_bad_shape ascii_printable some_room no_flags _ _ H).
  vm_compute. discriminate.
Defined.

Lemma GetAccessTokenOrDie_request_body_witness :
  let w := start {[ DSAPICRED_ENV := lit " CID,SEC,R1 " ]} []
             (json_object1 "access_token" "A1") in
  let cmd :=
    [ lit "curl"; lit "--data";
      lit "refresh_token=R1&client_id=CID&client_secret=SEC&grant_type=refresh_token";
      lit "https://accounts.google.com/o/oauth2/token" ] in
  environ w !! DSAPICRED_ENV = Some (lit " CID,SEC,R1 ")
  /\ strip (lit " CID,SEC,R1 ") = lit "CID" ++ lit "," ++ lit "SEC"
                                  ++ lit "," ++ lit "R1"
  /\ snd (GetAccessTokenOrDie ascii_printable some_room no_flags w)
     = log w [ EvPrint (running_line ascii_printable cmd);
               EvPrint (lit ""); EvExec cmd ].
Proof.
  assert (H : environ (start {[ DSAPICRED_ENV := lit " CID,SEC,R1 " ]} []
                         (json_object1 "access_token" "A1"))
              !! DSAPICRED_ENV
              = Some (lit " CID,SEC,R1 ")) by (vm_compute; reflexivity).
  assert (Hs : strip (lit " CID,SEC,R1 ")
               = lit "CID" ++ lit "," ++ lit "SEC" ++ lit "," ++ lit "R1")
    by (vm_compute; reflexivity).
  split; [exact H|]. split; [exact Hs|].
  apply (GetAccessTokenOrDie_request_body ascii_printable some_room no_flags _ _
           (lit "CID") (lit "SEC") (lit "R1") H Hs);
    vm_compute; intuition discriminate.
Defined.

Lemma Logout_revokes_witness :
  let w := start {[ DSAPICRED_ENV := lit "CID,SEC,R1" ]} []
             EmptyString in
  let cmd :=
    [ lit "curl";
      lit "https://accounts.google.com/o/oauth2/revoke?token=R1" ] in
  environ w !! DSAPICRED_ENV = Some (lit "CID,SEC,R1")
  /\ Logout ascii_printable no_flags w
     = (Ok tt, log w [ EvPrint (running_line ascii_printable cmd);
                       EvPrint (lit ""); EvExec cmd ]).
Proof.
  assert (H : environ (start {[ DSAPICRED_ENV := lit "CID,SEC,R1" ]} []
                         EmptyString) !! DSAPICRED_ENV
              = Some (lit "CID,SEC,R1")) by (vm_compute; reflexivity).
  assert (Hs : strip (lit "CID,SEC,R1")
               = lit "CID" ++ lit "," ++ lit "SEC" ++ lit "," ++ lit "R1")
    by (vm_compute; reflexivity).
  split; [exact H|].
  apply (Logout_revokes ascii_printable no_flags _ _
           (lit "CID") (lit "SEC") (lit "R1") H Hs);
    vm_compute; intuition discriminate.
Defined.

Lemma Login_shows_auth_url_witness :
  let w := start ∅ [lit "CID"; lit "SEC"; lit " analytics "] EmptyString in
  exists before after,
    trace (snd (Login ascii_printable no_text some_room w))
    = trace w ++ before
      ++ EvPrint
           (lit "https://accounts.google.com/o/oauth2/auth?scope=https%3A%2F%2Fwww.googleapis.com%2Fauth%2Fanalytics&redirect_uri=urn:ietf:wg:oauth:2.0:oob&response_type=code&access_type=offline&client_id=CID")
      :: after
    /\ forallb (fun e => negb (is_exec e)) before = true.
Proof.
  exact (Login_shows_auth_url ascii_printable no_text some_room
           (start ∅ [lit "CID"; lit "SEC"; lit " analytics "] EmptyString)
           (lit "CID") (lit "SEC") (lit " analytics ") [] eq_refl).
Defined.

Lemma Login_missing_refresh_token_witness :
  let body := json_object1 "error" "invalid_grant" in
  let w := start ∅ [lit "CID"; lit "SEC"; lit "analytics"; lit "CODE"]
             body in
  json_loads some_room body
  = inr (JObject [(lit "error", JString (lit "invalid_grant"))])
  /\ forallb plain_byte (codes body) = true
  /\ fst (Login ascii_printable no_text some_room w)
     = Raise (ValueError
                (lit "Missing refresh_token in response: b'{"
                 ++ lit dq ++ lit "error" ++ lit dq ++ lit ":"
                 ++ lit dq ++ lit "invalid_grant" ++ lit dq ++ lit "}'"))
  /\ str_contains (codes body)
       (lit "Missing refresh_token in response: " ++ bytes_repr body)
     = true.
Proof.
  assert (Hj : json_loads some_room (json_object1 "error" "invalid_grant")
               = inr (JObject [(lit "error", JString (lit "invalid_grant"))]))
    by (vm_compute; reflexivity).
  assert (Hb : forallb plain_byte
                 (codes (json_object1 "error" "invalid_grant")) = true)
    by (vm_compute; reflexivity).
  pose proof (Login_missing_refresh_token ascii_printable no_text some_room
                (start ∅ [lit "CID"; lit "SEC"; lit "analytics"; lit "CODE"]
                   (json_object1 "error" "invalid_grant"))
                (lit "CID") (lit "SEC") (lit "analytics") (lit "CODE") []
                (json_object1 "error" "invalid_grant") _
                eq_refl eq_refl Hj eq_refl) as [T1 T2].
  split; [exact Hj|]. split; [exact Hb|].
  split; [exact T1|exact (proj2 (T2 Hb))].
Defined.

Lemma round_trip_witness :
  let w1 := start ∅ [lit "CID"; lit "SEC"; lit "analytics"; lit "CODE"]
              (json_object1 "refresh_token" "R1") in
  let w2 := start {[ DSAPICRED_ENV := lit "CID,SEC,R1" ]} []
              (json_object1 "access_token" "A1") in
  (exists before,
     fst (Login ascii_printable no_text some_room w1) = Ok tt
     /\ trace (snd (Login ascii_printable no_text some_room w1))
        = trace w1 ++ before
          ++ [ EvPrint (lit "CID," ++ nl ++ lit "SEC," ++ nl ++ lit "R1");
               EvPrint (lit "") ])
  /\ fst (GetAccessTokenOrDie ascii_printable some_room no_flags w2)
     = Ok (JString (lit "A1")).
Proof.
  apply (round_trip ascii_printable no_text some_room no_flags
           (start ∅ [lit "CID"; lit "SEC"; lit "analytics"; lit "CODE"]
              (json_object1 "refresh_token" "R1"))
           (start {[ DSAPICRED_ENV := lit "CID,SEC,R1" ]} []
              (json_object1 "access_token" "A1"))
           (lit "analytics") (lit "CODE") []);
    first [ reflexivity | vm_compute; reflexivity ].
Defined.

Lemma Main_dispatch_witness :
  let w := start ∅ [] EmptyString in
  let argv := [lit "prog"; lit "--logout"; lit "--login"] in
  startswith (lit "-") (lit "prog") = false
  /\ Main ascii_printable no_text some_room argv w = Login ascii_printable no_text some_room w.
Proof.
  assert (Hp : startswith (lit "-") (lit "prog") = false)
    by (vm_compute; reflexivity).
  assert (Hf : Forall is_flag [lit "--logout"; lit "--login"]).
  { constructor; [right; reflexivity|].
    constructor; [left; reflexivity|]. constructor. }
  split; [exact Hp|].
  apply (proj1 (Main_dispatch ascii_printable no_text some_room
                  (start ∅ [] EmptyString) (lit "prog")
                  [lit "--logout"; lit "--login"] Hp Hf)).
  right. left. reflexivity.
Defined.

Lemma command_line_printed_witness :
  let w := start ∅ [lit "CID"; lit "SEC"; lit "analytics"; lit "4/c0de"]
             EmptyString in
  In (EvPrint
        (lit "running command: ['curl', '-s', '--data', 'code=4/c0de&client_id=CID&client_secret=SEC&redirect_uri=urn:ietf:wg:oauth:2.0:oob&grant_type=authorization_code', 'https://accounts.google.com/o/oauth2/token']"))
     (trace (snd (Login ascii_printable no_text some_room w))).
Proof.
  exact (proj2 (proj2 (proj2 (proj2
           (command_line_printed ascii_printable no_text some_room no_flags
              (start ∅ [lit "CID"; lit "SEC"; lit "analytics"; lit "4/c0de"]
                 EmptyString)
              (lit "CID") (lit "SEC") (lit "analytics") (lit "4/c0de") []
              eq_refl))))).
Defined.

(** C2 as the specification words it fails on an answer laid out over
    several lines: the answer is a JSON object without [refresh_token],
    [Login] raises [ValueError], and the message does not hold the
    answer, because [repr] writes each line feed as a backslash and an
    [n]. *)
Lemma Login_message_escapes_body :
  let w := start ∅ [lit "CID"; lit "SEC"; lit "analytics"; lit "CODE"]
             error_body in
  (forall room,
     json_loads room error_body
     = inr (JObject [(lit "error", JString (lit "invalid_grant"))]))
  /\ py_in (lit "refresh_token")
       (JObject [(lit "error", JString (lit "invalid_grant"))])
     = Some false
  /\ forall isprintable str_of_value room,
     exists msg,
       fst (Login isprintable str_of_value room w) = Raise (ValueError msg)
       /\ msg = lit "Missing refresh_token in response: b'{\n  "
                ++ lit dq ++ lit "error" ++ lit dq ++ lit ": "
                ++ lit dq ++ lit "invalid_grant" ++ lit dq ++ lit "\n}'"
       /\ str_contains (codes error_body) msg = false.
Proof.
  assert (Hj : forall room,
             json_loads room error_body
             = inr (JObject [(lit "error", JString (lit "invalid_grant"))]))
    by (intros room; vm_compute; reflexivity).
  split; [exact Hj|]. split; [vm_compute; reflexivity|].
  intros isprintable str_of_value room. eexists. split; [|split].
  - exact (f_equal fst
             (Login_else isprintable str_of_value room
                (start ∅ [lit "CID"; lit "SEC"; lit "analytics"; lit "CODE"]
                   error_body)
                (lit "CID") (lit "SEC") (lit "analytics") (lit "CODE") []
                error_body _ eq_refl eq_refl (Hj room) eq_refl)).
  - vm_compute. reflexivity.
  - vm_compute. reflexivity.
Qed.

(** Three lists, one inside the other: an answer of seven bytes that
    [json.loads] decodes where the scanner can enter three levels, and
    gives up on where it can enter two. *)
Lemma json_loads_nested :
  json_loads 2 "[[[1]]]"%string = inr (JArray [JArray [JArray [JInt 1]]])
  /\ json_loads 1 "[[[1]]]"%string = inl RecursionError
  /\ is_ValueError RecursionError = false.
Proof. repeat split; vm_compute; reflexivity. Qed.

(** * More instances *)

Lemma start_lookup (v : pystr) (lines : list pystr) (answer : bytes) :
  environ (start {[ DSAPICRED_ENV := v ]} lines answer) !! DSAPICRED_ENV
  = Some v.
Proof. unfold start. cbn [environ]. apply lookup_singleton_eq. Qed.

Lemma credential_found :
  let w := start {[ DSAPICRED_ENV := lit "CID,SEC,R1" ]} [] EmptyString in
  environ w !! DSAPICRED_ENV = Some (lit "CID,SEC,R1")
  /\ split 44 (strip (lit "CID,SEC,R1")) = [lit "CID"; lit "SEC"; lit "R1"].
Proof. split; vm_compute; reflexivity. Qed.

Lemma GetAccessTokenOrDie_missing_access_token_witness :
  let body := json_object1 "error" "invalid_grant" in
  let w := start {[ DSAPICRED_ENV := lit "CID,SEC,R1" ]} [] body in
  json_loads some_room body
  = inr (JObject [(lit "error", JString (lit "invalid_grant"))])
  /\ fst (GetAccessTokenOrDie ascii_printable some_room no_flags w)
     = Raise (ValueError
                (lit "missing access_token in response: b'{"
                 ++ lit dq ++ lit "error" ++ lit dq ++ lit ":"
                 ++ lit dq ++ lit "invalid_grant" ++ lit dq ++ lit "}'")).
Proof.
  assert (Hj : json_loads some_room (json_object1 "error" "invalid_grant")
               = inr (JObject [(lit "error", JString (lit "invalid_grant"))]))
    by (vm_compute; reflexivity).
  split; [exact Hj|].
  assert (Hn : ~ In (lit "access_token")
                 (List.map fst [(lit "error", JString (lit "invalid_grant"))])).
  { intros [E|[]]. vm_compute in E. discriminate E. }
  exact (f_equal fst
           (GetAccessTokenOrDie_missing_access_token ascii_printable some_room
              no_flags
              (start {[ DSAPICRED_ENV := lit "CID,SEC,R1" ]} []
                 (json_object1 "error" "invalid_grant"))
              (lit "CID,SEC,R1") (lit "CID") (lit "SEC") (lit "R1")
              (json_object1 "error" "invalid_grant") _
              (proj1 credential_found) (proj2 credential_found)
              eq_refl Hj Hn)).
Defined.

Lemma GetAccessTokenOrDie_returns_token_witness :
  let body := json_object1 "access_token" "A1" in
  let w := start {[ DSAPICRED_ENV := lit "CID,SEC,R1" ]} [] body in
  json_loads some_room body
  = inr (JObject ([] ++ (lit "access_token", JString (lit "A1")) :: []))
  /\ fst (GetAccessTokenOrDie ascii_printable some_room no_flags w)
     = Ok (JString (lit "A1")).
Proof.
  assert (Hj : json_loads some_room (json_object1 "access_token" "A1")
               = inr (JObject ([] ++ (lit "access_token",
                                      JString (lit "A1")) :: [])))
    by (vm_compute; reflexivity).
  split; [exact Hj|].
  apply (GetAccessTokenOrDie_returns_token ascii_printable some_room no_flags
           (start {[ DSAPICRED_ENV := lit "CID,SEC,R1" ]} []
              (json_object1 "access_token" "A1"))
           (lit "CID,SEC,R1") (lit "CID") (lit "SEC") (lit "R1")
           (json_object1 "access_token" "A1") [] [] _
           (proj1 credential_found) (proj2 credential_found) eq_refl Hj).
  intros [].
Defined.


Lemma GetAccessTokenOrDie_scalar_witness :
  let w := start {[ DSAPICRED_ENV := lit "CID,SEC,R1" ]} [] "null"%string in
  json_loads some_room "null"%string = inr JNull
  /\ fst (GetAccessTokenOrDie ascii_printable some_room no_flags w) = Raise TypeError.
Proof.
  assert (Hj : json_loads some_room "null"%string = inr JNull) by (vm_compute; reflexivity).
  split; [exact Hj|].
  exact (proj1
           (GetAccessTokenOrDie_scalar ascii_printable some_room no_flags
              (start {[ DSAPICRED_ENV := lit "CID,SEC,R1" ]} [] "null"%string)
              (lit "CID,SEC,R1") (lit "CID") (lit "SEC") (lit "R1")
              "null"%string JNull
              (proj1 credential_found) (proj2 credential_found)
              eq_refl Hj eq_refl)).
Defined.

Lemma GetAccessTokenOrDie_commas_witness :
  let w := start {[ DSAPICRED_ENV := lit "CID,SEC,R1,X" ]} [] EmptyString in
  commas (strip (lit "CID,SEC,R1,X")) = 3%nat
  /\ exists msg,
       GetAccessTokenOrDie ascii_printable some_room no_flags w
       = (Raise (ValueError msg), w).
Proof.
  split; [vm_compute; reflexivity|].
  apply (proj2
           (GetAccessTokenOrDie_commas ascii_printable some_room no_flags
              (start {[ DSAPICRED_ENV := lit "CID,SEC,R1,X" ]} []
                 EmptyString)
              (lit "CID,SEC,R1,X") (start_lookup _ _ _))).
  vm_compute. discriminate.
Defined.

Lemma blank_credential_witness :
  let w := start {[ DSAPICRED_ENV := lit "  " ]} [] EmptyString in
  forallb isspace (lit "  ") = true
  /\ GetAccessTokenOrDie ascii_printable some_room no_flags w
     = (Raise (ValueError
                 (lit "not enough values to unpack (expected 3, got 1)")),
        w).
Proof.
  split; [vm_compute; reflexivity|].
  exact (proj1
           (blank_credential ascii_printable some_room no_flags
              (start {[ DSAPICRED_ENV := lit "  " ]} [] EmptyString)
              (lit "  ") (start_lookup _ _ _) eq_refl)).
Defined.

Lemma Logout_bad_shape_witness :
  let w := start {[ DSAPICRED_ENV := lit "R1" ]} [] EmptyString in
  length (split 44 (strip (lit "R1"))) = 1%nat
  /\ exists msg,
       Logout ascii_printable no_flags w = (Raise (ValueError msg), w).
Proof.
  split; [vm_compute; reflexivity|].
  apply (Logout_bad_shape ascii_printable no_flags
           (start {[ DSAPICRED_ENV := lit "R1" ]} [] EmptyString)
           (lit "R1") (start_lookup _ _ _)).
  vm_compute. discriminate.
Defined.

Lemma Login_success_witness :
  let body := json_object1 "refresh_token" "R1" in
  let w := start ∅ [lit " CID "; lit "SEC"; lit "analytics"; lit "CODE"]
             body in
  fst (Login ascii_printable no_text some_room w) = Ok tt
  /\ In (EvPrint (lit "CID," ++ nl ++ lit "SEC," ++ nl ++ lit "R1"))
       (trace (snd (Login ascii_printable no_text some_room w))).
Proof.
  assert (Hj : json_loads some_room (json_object1 "refresh_token" "R1")
               = inr (JObject ([] ++ (lit "refresh_token",
                                      JString (lit "R1")) :: [])))
    by (vm_compute; reflexivity).
  pose proof (Login_success ascii_printable no_text some_room
                (start ∅ [lit " CID "; lit "SEC"; lit "analytics";
                          lit "CODE"]
                   (json_object1 "refresh_token" "R1"))
                (lit " CID ") (lit "SEC") (lit "analytics") (lit "CODE") []
                (json_object1 "refresh_token" "R1") [] []
                (JString (lit "R1")) eq_refl eq_refl Hj
                (fun H : In _ [] => H) eq_refl) as T.
  cbv zeta. rewrite T. split; [reflexivity|].
  cbn [snd log trace]. apply in_or_app. right.
  do 3 right. left. reflexivity.
Defined.


Lemma Login_scalar_witness :
  let w := start ∅ [lit "CID"; lit "SEC"; lit "analytics"; lit "CODE"]
             "17"%string in
  json_loads some_room "17"%string = inr (JInt 17)
  /\ fst (Login ascii_printable no_text some_room w) = Raise TypeError.
Proof.
  assert (Hj : json_loads some_room "17"%string = inr (JInt 17))
    by (vm_compute; reflexivity).
  split; [exact Hj|].
  exact (proj1
           (Login_scalar ascii_printable no_text some_room
              (start ∅ [lit "CID"; lit "SEC"; lit "analytics"; lit "CODE"]
                 "17"%string)
              (lit "CID") (lit "SEC") (lit "analytics") (lit "CODE") []
              "17"%string (JInt 17) eq_refl eq_refl Hj eq_refl)).
Defined.

Lemma Login_successful_then_TypeError_witness :
  let body := String.concat EmptyString
                [ "["%string; dq; "refresh_token"%string; dq;
                  "]"%string ] in
  let w := start ∅ [lit "CID"; lit "SEC"; lit "analytics"; lit "CODE"]
             body in
  json_loads some_room body = inr (JArray [JString (lit "refresh_token")])
  /\ fst (Login ascii_printable no_text some_room w) = Raise TypeError
  /\ In (EvPrint (lit "Login successful."))
       (trace (snd (Login ascii_printable no_text some_room w))).
Proof.
  set (body := String.concat EmptyString
                 [ "["%string; dq; "refresh_token"%string; dq;
                   "]"%string ]).
  assert (Hj : json_loads some_room body
               = inr (JArray [JString (lit "refresh_token")]))
    by (vm_compute; reflexivity).
  pose proof (Login_successful_then_TypeError ascii_printable no_text some_room
                (start ∅ [lit "CID"; lit "SEC"; lit "analytics"; lit "CODE"]
                   body)
                (lit "CID") (lit "SEC") (lit "analytics") (lit "CODE") []
                body _ eq_refl eq_refl Hj
                (or_introl
                   (ex_intro _ [JString (lit "refresh_token")]
                      (conj eq_refl (or_introl eq_refl))))) as T.
  split; [exact Hj|]. fold body. rewrite T. split; [reflexivity|].
  cbn [snd log trace]. apply in_or_app. right. left. reflexivity.
Defined.

Lemma Login_end_of_input_witness :
  let w := start ∅ [lit "CID"; lit "SEC"] EmptyString in
  fst (Login ascii_printable no_text some_room w) = Raise EOFError
  /\ last (trace (snd (Login ascii_printable no_text some_room w)))
     = Some (EvPrompt (lit "Scope: ")).
Proof.
  pose proof (Login_end_of_input ascii_printable no_text some_room
                (start ∅ [lit "CID"; lit "SEC"] EmptyString)
                ltac:(cbn; lia)) as (T & _ & _).
  cbv zeta. rewrite T. split; reflexivity.
Defined.

Lemma Login_then_GetAccessTokenOrDie_witness :
  let w1 := start ∅ [lit "CID"; lit "SEC"; lit "analytics"; lit "CODE"]
              (json_object1 "refresh_token" "R1") in
  let w2 := start {[ DSAPICRED_ENV := lit "CID,SEC,R1" ]} []
              (json_object1 "access_token" "A1") in
  In (EvPrint (lit "CID," ++ nl ++ lit "SEC," ++ nl ++ lit "R1"))
     (trace (snd (Login ascii_printable no_text some_room w1)))
  /\ launched (trace (snd (GetAccessTokenOrDie ascii_printable some_room no_flags w2)))
     = [ [ lit "curl"; lit "--data";
           lit "refresh_token=R1&client_id=CID&client_secret=SEC&grant_type=refresh_token";
           lit "https://accounts.google.com/o/oauth2/token" ] ].
Proof.
  assert (Hj : json_loads some_room (json_object1 "refresh_token" "R1")
               = inr (JObject ([] ++ (lit "refresh_token",
                                      JString (lit "R1")) :: [])))
    by (vm_compute; reflexivity).
  assert (Hl : forall x, last (lit "R1") = Some x -> isspace x = false).
  { intros x [= <-]. reflexivity. }
  pose proof (Login_then_GetAccessTokenOrDie ascii_printable no_text some_room
                no_flags
                (start ∅ [lit "CID"; lit "SEC"; lit "analytics"; lit "CODE"]
                   (json_object1 "refresh_token" "R1"))
                (start {[ DSAPICRED_ENV := lit "CID,SEC,R1" ]} []
                   (json_object1 "access_token" "A1"))
                (lit "CID") (lit "SEC") (lit "analytics") (lit "CODE") []
                (json_object1 "refresh_token" "R1") [] [] (lit "R1")
                eq_refl eq_refl Hj (fun H : In _ [] => H)
                ltac:(vm_compute; intuition discriminate)
                ltac:(vm_compute; intuition discriminate)
                ltac:(vm_compute; intuition discriminate)
                eq_refl Hl (start_lookup _ _ _)) as [T1 T2].
  split; [exact T1|]. cbv zeta. rewrite T2. reflexivity.
Defined.

Lemma Main_ignores_positional_witness :
  let w := start ∅ [] EmptyString in
  startswith (lit "-") (lit "verbose") = false
  /\ Main ascii_printable no_text some_room
       [lit "prog"; lit "verbose"; lit "--logout"] w
     = Main ascii_printable no_text some_room [lit "prog"; lit "--logout"] w.
Proof.
  split; [reflexivity|].
  exact (Main_ignores_positional ascii_printable no_text some_room
           (start ∅ [] EmptyString) [lit "prog"] [lit "--logout"]
           (lit "verbose") eq_refl).
Defined.

Lemma Main_logout_without_credentials_witness :
  let w := start ∅ [] EmptyString in
  Main ascii_printable no_text some_room [lit "prog"; lit "--logout"] w
  = (Exit (-1), log w [EvPrint missing_credentials_text]).
Proof.
  assert (Hf : Forall is_flag [lit "--logout"]).
  { constructor; [right; reflexivity|constructor]. }
  assert (Hn : ~ In (lit "--login") [lit "--logout"]).
  { intros [E|[]]. vm_compute in E. discriminate E. }
  exact (proj1
           (Main_logout_without_credentials ascii_printable no_text some_room
              (start ∅ [] EmptyString) (lit "prog") [lit "--logout"]
              eq_refl Hf Hn (or_introl eq_refl) eq_refl)).
Defined.

Lemma Main_help_witness :
  let w := start ∅ [] EmptyString in
  Main ascii_printable no_text some_room
    [lit "prog"; lit "--login"; lit "-h"; lit "--logout"] w
  = (Exit 0, log w [EvHelp]).
Proof.
  assert (Hf : Forall is_flag [lit "--login"]).
  { constructor; [left; reflexivity|constructor]. }
  exact (Main_help ascii_printable no_text some_room (start ∅ [] EmptyString)
           (lit "prog") (lit "-h") [lit "--login"] [lit "--logout"]
           eq_refl Hf (or_intror eq_refl)).
Defined.
